(** * prtyprnt: the Logger, its write-stream handling and the log rotation helpers

    A shallow embedding of [src/classes/Logger.ts], [src/classes/Utils.ts] and
    [src/types/constants.ts].  Loggers and write streams are objects with
    identity, so they live in a store indexed by locations; the file system,
    the console and the listener calls are part of the same world.  The
    runtime's services (zlib, the local time zone, the formatter
    implementations) are taken as a [Host]. *)

From Stdlib Require Import ZArith List String Ascii Lia Bool.
From stdpp Require Import base gmap strings list.

Local Open Scope Z_scope.

(** ** JavaScript strings

    A string is the list of its characters, each held as an integer: text
    decoded from UTF-8 has one entry per code point. *)

Definition jsstring : Type := list Z.

Definition lit (s : string) : jsstring :=
  map (fun a => Z.of_nat (nat_of_ascii a)) (list_ascii_of_string s).

Definition jsstring_eqb (a b : jsstring) : bool := bool_decide (a = b).

(** [String.prototype.split] on a one-character separator. *)
Fixpoint split_on (sep : Z) (s : jsstring) : list jsstring :=
  match s with
  | [] => [[]]
  | c :: rest =>
      if c =? sep then [] :: split_on sep rest
      else match split_on sep rest with
           | [] => [[c]]
           | hd :: tl => (c :: hd) :: tl
           end
  end.

(** [Array.prototype.join] with a one-character separator. *)
Fixpoint join_with (sep : Z) (parts : list jsstring) : jsstring :=
  match parts with
  | [] => []
  | [p] => p
  | p :: rest => p ++ sep :: join_with sep rest
  end.

(** White space and line terminators removed by [String.prototype.trim]. *)
Definition is_js_space (c : Z) : bool :=
  (c =? 9) || (c =? 10) || (c =? 11) || (c =? 12) || (c =? 13) || (c =? 32)
  || (c =? 160) || (c =? 5760) || ((8192 <=? c) && (c <=? 8202))
  || (c =? 8232) || (c =? 8233) || (c =? 8239) || (c =? 8287)
  || (c =? 12288) || (c =? 65279).

Fixpoint trim_start (s : jsstring) : jsstring :=
  match s with
  | c :: rest => if is_js_space c then trim_start rest else s
  | [] => []
  end.

Definition trim (s : jsstring) : jsstring :=
  rev (trim_start (rev (trim_start s))).

Definition startsWith (s : jsstring) (c : Z) : bool :=
  match s with
  | x :: _ => x =? c
  | [] => false
  end.

Definition endsWith (s : jsstring) (c : Z) : bool := startsWith (rev s) c.

(** [s.substring(1, s.length - 1)]: [substring] swaps its bounds when the
    first is the larger one, which happens for the empty string only. *)
Definition substring_inner (s : jsstring) : jsstring :=
  match s with
  | [] => []
  | _ :: rest => removelast rest
  end.

(** Decimal rendering of an integer, as [Number.prototype.toString] does. *)
Fixpoint dec_digits (fuel : nat) (n : Z) (acc : jsstring) : jsstring :=
  match fuel with
  | O => acc
  | S f =>
      let acc' := (48 + n mod 10) :: acc in
      if n / 10 =? 0 then acc' else dec_digits f (n / 10) acc'
  end.

Definition Number_toString (n : Z) : jsstring :=
  if n <? 0 then 45 :: dec_digits (S (Z.to_nat (Z.log2 (- n)))) (- n) []
  else dec_digits (S (Z.to_nat (Z.log2 n))) n [].

Definition padStart0 (width : nat) (s : jsstring) : jsstring :=
  repeat 48 (width - length s)%nat ++ s.

(** ** UTF-8

    [Buffer.prototype.toString('utf-8')] decodes leniently: every maximal
    ill-formed part becomes U+FFFD.  Writing a string encodes it again. *)

Inductive Utf8State : Type :=
| Utf8Start
| Utf8Cont (cp : Z) (needed : Z) (lower upper : Z).

Definition utf8_lead (b : Z) : list Z * Utf8State :=
  if (0 <=? b) && (b <=? 127) then ([b], Utf8Start)
  else if (194 <=? b) && (b <=? 223) then ([], Utf8Cont (Z.land b 31) 1 128 191)
  else if (224 <=? b) && (b <=? 239) then
    ([], Utf8Cont (Z.land b 15) 2 (if b =? 224 then 160 else 128)
                  (if b =? 237 then 159 else 191))
  else if (240 <=? b) && (b <=? 244) then
    ([], Utf8Cont (Z.land b 7) 3 (if b =? 240 then 144 else 128)
                  (if b =? 244 then 143 else 191))
  else ([65533], Utf8Start).

Fixpoint utf8_decode_from (st : Utf8State) (bs : list Z) : jsstring :=
  match bs with
  | [] => match st with Utf8Start => [] | Utf8Cont _ _ _ _ => [65533] end
  | b :: rest =>
      match st with
      | Utf8Start =>
          let '(out, st') := utf8_lead b in out ++ utf8_decode_from st' rest
      | Utf8Cont cp needed lower upper =>
          if (lower <=? b) && (b <=? upper) then
            let cp' := Z.lor (Z.shiftl cp 6) (Z.land b 63) in
            if needed =? 1 then cp' :: utf8_decode_from Utf8Start rest
            else utf8_decode_from (Utf8Cont cp' (needed - 1) 128 191) rest
          else
            let '(out, st') := utf8_lead b in
            65533 :: out ++ utf8_decode_from st' rest
      end
  end.

Definition utf8_decode (bs : list Z) : jsstring := utf8_decode_from Utf8Start bs.

Definition utf8_encode_char (c : Z) : list Z :=
  if c <? 128 then [c]
  else if c <? 2048 then [Z.lor 192 (Z.shiftr c 6); Z.lor 128 (Z.land c 63)]
  else if (55296 <=? c) && (c <=? 57343) then [239; 191; 189]
  else if c <? 65536 then
    [Z.lor 224 (Z.shiftr c 12); Z.lor 128 (Z.land (Z.shiftr c 6) 63);
     Z.lor 128 (Z.land c 63)]
  else
    [Z.lor 240 (Z.shiftr c 18); Z.lor 128 (Z.land (Z.shiftr c 12) 63);
     Z.lor 128 (Z.land (Z.shiftr c 6) 63); Z.lor 128 (Z.land c 63)].

Definition utf8_encode (s : jsstring) : list Z := flat_map utf8_encode_char s.

(** ** Dates

    A [Date] holds a time value in milliseconds since the epoch, or no value
    at all (an invalid date). *)

Definition Date : Type := option Z.

Definition msPerDay : Z := 86400000.
Definition msPerHour : Z := 3600000.
Definition msPerMinute : Z := 60000.
Definition msPerSecond : Z := 1000.

(** Year, month and day of a day number (days since 1970-01-01). *)
Definition civil_from_days (z0 : Z) : Z * Z * Z :=
  let z := z0 + 719468 in
  let era := z / 146097 in
  let doe := z - era * 146097 in
  let yoe := (doe - doe / 1460 + doe / 36524 - doe / 146096) / 365 in
  let y := yoe + era * 400 in
  let doy := doe - (365 * yoe + yoe / 4 - yoe / 100) in
  let mp := (5 * doy + 2) / 153 in
  let d := doy - (153 * mp + 2) / 5 + 1 in
  let m := if mp <? 10 then mp + 3 else mp - 9 in
  (if m <=? 2 then y + 1 else y, m, d).

Definition days_from_civil (y0 m d : Z) : Z :=
  let y := if m <=? 2 then y0 - 1 else y0 in
  let era := y / 400 in
  let yoe := y - era * 400 in
  let mp := if m <=? 2 then m + 9 else m - 3 in
  let doy := (153 * mp + 2) / 5 + d - 1 in
  let doe := yoe * 365 + yoe / 4 - yoe / 100 + doy in
  era * 146097 + doe - 719468.

Definition is_leap (y : Z) : bool :=
  ((y mod 4 =? 0) && negb (y mod 100 =? 0)) || (y mod 400 =? 0).

Definition days_in_month (y m : Z) : Z :=
  if m =? 2 then (if is_leap y then 29 else 28)
  else if (m =? 4) || (m =? 6) || (m =? 9) || (m =? 11) then 30 else 31.

(** [Date.prototype.toISOString] of a valid time value. *)
Definition iso_of_time (t : Z) : jsstring :=
  let '(y, m, d) := civil_from_days (t / msPerDay) in
  let ms := t mod msPerDay in
  let year :=
    if (0 <=? y) && (y <=? 9999) then padStart0 4 (Number_toString y)
    else (if y <? 0 then 45 else 43) :: padStart0 6 (Number_toString (Z.abs y)) in
  year ++ lit "-" ++ padStart0 2 (Number_toString m)
       ++ lit "-" ++ padStart0 2 (Number_toString d)
       ++ lit "T" ++ padStart0 2 (Number_toString (ms / msPerHour))
       ++ lit ":" ++ padStart0 2 (Number_toString (ms / msPerMinute mod 60))
       ++ lit ":" ++ padStart0 2 (Number_toString (ms / msPerSecond mod 60))
       ++ lit "." ++ padStart0 3 (Number_toString (ms mod 1000))
       ++ lit "Z".

Definition digit_val (c : Z) : option Z :=
  if (48 <=? c) && (c <=? 57) then Some (c - 48) else None.

Fixpoint digits_val (acc : Z) (s : jsstring) : option Z :=
  match s with
  | [] => Some acc
  | c :: rest =>
      match digit_val c with
      | Some v => digits_val (acc * 10 + v) rest
      | None => None
      end
  end.

(** The date-time string format [YYYY-MM-DDTHH:mm:ss.sssZ] every engine must
    read back exactly. *)
Definition parse_iso_utc (s : jsstring) : option Z :=
  match s with
  | [y1; y2; y3; y4; 45; m1; m2; 45; d1; d2; 84; h1; h2; 58; n1; n2; 58;
     s1; s2; 46; f1; f2; f3; 90] =>
      match digits_val 0 [y1; y2; y3; y4], digits_val 0 [m1; m2],
            digits_val 0 [d1; d2], digits_val 0 [h1; h2],
            digits_val 0 [n1; n2], digits_val 0 [s1; s2],
            digits_val 0 [f1; f2; f3] with
      | Some y, Some m, Some d, Some h, Some n, Some sec, Some f =>
          if (1 <=? m) && (m <=? 12) && (1 <=? d) && (d <=? days_in_month y m)
             && (h <=? 23) && (n <=? 59) && (sec <=? 59)
          then Some (days_from_civil y m d * msPerDay + h * msPerHour
                     + n * msPerMinute + sec * msPerSecond + f)
          else None
      | _, _, _, _, _, _, _ => None
      end
  | _ => None
  end.

(** ** Paths ([node:path], POSIX flavour) *)

Definition slash : Z := 47.
Definition dot : Z := 46.

(** [normalizeString]: empty and [.] segments go, [..] takes the segment
    before it away; where there is none to take, it stays if the path is
    relative ([allowAboveRoot]) and goes if it is absolute. *)
Fixpoint normalize_segments (allowAboveRoot : bool) (segs stack : list jsstring)
    : list jsstring :=
  match segs with
  | [] => rev stack
  | s :: rest =>
      if jsstring_eqb s [] || jsstring_eqb s [dot] then
        normalize_segments allowAboveRoot rest stack
      else if jsstring_eqb s [dot; dot] then
        match stack with
        | top :: below =>
            if jsstring_eqb top [dot; dot] then
              normalize_segments allowAboveRoot rest
                (if allowAboveRoot then s :: stack else stack)
            else normalize_segments allowAboveRoot rest below
        | [] =>
            normalize_segments allowAboveRoot rest
              (if allowAboveRoot then [s] else [])
        end
      else normalize_segments allowAboveRoot rest (s :: stack)
  end.

(** [path.normalize] *)
Definition path_normalize (p : jsstring) : jsstring :=
  if jsstring_eqb p [] then [dot]
  else
    let isAbsolute := startsWith p slash in
    let trailingSeparator := endsWith p slash in
    let body := join_with slash
                  (normalize_segments (negb isAbsolute) (split_on slash p) []) in
    if jsstring_eqb body [] then
      (if isAbsolute then [slash]
       else if trailingSeparator then [dot; slash] else [dot])
    else
      let body := if trailingSeparator then body ++ [slash] else body in
      if isAbsolute then slash :: body else body.

(** [path.resolve(p)] in the working directory [cwd], which is absolute. *)
Definition path_resolve (cwd p : jsstring) : jsstring :=
  slash :: join_with slash
             (normalize_segments false
                (split_on slash (if startsWith p slash then p else cwd ++ slash :: p))
                []).

(** [path.join(dir, name)]: the arguments that are not empty, joined and
    normalized. *)
Definition path_join (dir name : jsstring) : jsstring :=
  if jsstring_eqb dir [] then path_normalize name
  else if jsstring_eqb name [] then path_normalize dir
  else path_normalize (dir ++ slash :: name).

Fixpoint ext_scan (s : jsstring) : option jsstring :=
  match s with
  | [] => None
  | c :: rest =>
      match ext_scan rest with
      | Some e => Some e
      | None => if c =? dot then Some s else None
      end
  end.

(** The [dir] and [ext] fields of [path.parse]. *)
Record ParsedPath : Type := { dir : jsstring; base : jsstring; ext : jsstring }.

Definition path_parse (file : jsstring) : ParsedPath :=
  let segs := split_on slash file in
  let d := join_with slash (removelast segs) in
  let b := List.last segs [] in
  {| dir := if jsstring_eqb d [] then (if startsWith file slash then [slash] else [])
            else d;
     base := b;
     ext := match b with
            | [] => []
            | _ :: rest => match ext_scan rest with Some e => e | None => [] end
            end |}.

(** ** Constants ([src/types/constants.ts]) *)

Inductive LogLevel : Type := Debug | Info | Warn | Error.

Definition LogLevel_value (l : LogLevel) : Z :=
  match l with Debug => 1 | Info => 2 | Warn => 3 | Error => 4 end.

Inductive FileWriteStreamMode : Type := Append | Truncate | Rename.

#[global] Instance LogLevel_eq_dec : EqDecision LogLevel.
Proof. solve_decision. Defined.

(** ** The world: loggers, streams, files, console *)

Definition loc : Type := nat.
Definition sid : Type := nat.

(** What a message argument ([any]) is to the formatter. *)
Inductive JSValue : Type :=
| VString (s : jsstring)
| VObject (repr : jsstring).

(** A formatter object: the one the constructor of a logger makes with
    [new Formatter()], or one supplied by the caller. *)
Inductive FormatterRef : Type :=
| DefaultFormatter (owner : loc)
| CustomFormatter (id : nat).

Record InspectOptions : Type := { colors : bool; depth : option Z }.

(** [node:fs] [WriteStream]: the file it writes, its two flags and what it
    was given to write. *)
Record WriteStream : Type := {
  ws_path : jsstring;
  closed : bool;
  destroyed : bool;
  (** the chunks [write] has accepted, oldest first *)
  written : list jsstring
}.

Record Logger : Type := {
  _writeStream : option sid;
  formatter : FormatterRef;
  parent : option loc;
  label : option jsstring;
  objectInspectOptions : option InspectOptions;
  logLevel : option LogLevel;
  writeLevel : option LogLevel;
  (** the emitter's registered listeners, in registration order *)
  listeners : list (LogLevel * nat)
}.

Record FormatterFormatOptions : Type := {
  fo_level : LogLevel;
  fo_messages : list JSValue;
  fo_logger : loc
}.

(** The event data: [{...options, pretty, simple}]. *)
Record EventData : Type := {
  ev_options : FormatterFormatOptions;
  ev_pretty : jsstring;
  ev_simple : jsstring
}.

(** One invocation of a listener. *)
Record ListenerCall : Type := {
  call_at : loc;
  call_listener : nat;
  call_event : LogLevel;
  call_data : EventData
}.

Inductive FsNode : Type :=
| FsFile (content : list Z) (birthMs changeMs : Z)
| FsDir.

Record Stats : Type := { isFile : bool; birthtimeMs : Z; ctimeMs : Z }.

Record World : Type := {
  loggers : gmap loc Logger;
  streams : gmap sid WriteStream;
  files : gmap jsstring FsNode;
  (** console output, each entry on the channel named after its level *)
  console : list (LogLevel * jsstring);
  calls : list ListenerCall;
  now : Z;
  cwd : jsstring
}.

Definition with_loggers (f : gmap loc Logger -> gmap loc Logger) (w : World) : World :=
  {| loggers := f (loggers w); streams := streams w; files := files w;
     console := console w; calls := calls w; now := now w; cwd := cwd w |}.

Definition with_streams (f : gmap sid WriteStream -> gmap sid WriteStream) (w : World) : World :=
  {| loggers := loggers w; streams := f (streams w); files := files w;
     console := console w; calls := calls w; now := now w; cwd := cwd w |}.

Definition with_files (f : gmap jsstring FsNode -> gmap jsstring FsNode) (w : World) : World :=
  {| loggers := loggers w; streams := streams w; files := f (files w);
     console := console w; calls := calls w; now := now w; cwd := cwd w |}.

Definition with_console (f : list (LogLevel * jsstring) -> list (LogLevel * jsstring))
    (w : World) : World :=
  {| loggers := loggers w; streams := streams w; files := files w;
     console := f (console w); calls := calls w; now := now w; cwd := cwd w |}.

Definition with_calls (f : list ListenerCall -> list ListenerCall) (w : World) : World :=
  {| loggers := loggers w; streams := streams w; files := files w;
     console := console w; calls := f (calls w); now := now w; cwd := cwd w |}.

(** What the runtime provides: the local time zone adjustment at a time
    value, zlib's gzip (a result or an error), the engine's reading of date
    strings outside the standard format, and the formatters. *)
Record Host : Type := {
  LocalTZA : Z -> Z;
  gzip : list Z -> list Z + jsstring;
  Date_parse_host : jsstring -> Date;
  formatConsoleLog : FormatterRef -> World -> FormatterFormatOptions -> jsstring;
  formatWriteStreamLog : FormatterRef -> World -> FormatterFormatOptions -> jsstring
}.

(** ** Computations: a state monad over the world

    A call returns, throws (or rejects), never settles, or the model ran out
    of the fuel that bounds walks along the parent chain. *)

Inductive Outcome (A : Type) : Type :=
| Ok (a : A) (w : World)
| Throw (e : jsstring) (w : World)
| Pending (w : World)
| OutOfFuel.

Arguments Ok {A} a w.
Arguments Throw {A} e w.
Arguments Pending {A} w.
Arguments OutOfFuel {A}.

Definition M (A : Type) : Type := World -> Outcome A.

Definition ret {A} (a : A) : M A := fun w => Ok a w.

Definition bind {A B} (m : M A) (k : A -> M B) : M B :=
  fun w =>
    match m w with
    | Ok a w' => k a w'
    | Throw e w' => Throw e w'
    | Pending w' => Pending w'
    | OutOfFuel => OutOfFuel
    end.

Definition throw {A} (e : jsstring) : M A := fun w => Throw e w.
Definition get : M World := fun w => Ok w w.
Definition modify (f : World -> World) : M unit := fun w => Ok tt (f w).
Definition when (b : bool) (m : M unit) : M unit := if b then m else ret tt.

Notation "x <- m ;; k" := (bind m (fun x => k))
  (at level 100, m at next level, right associativity).
Notation "m ;;; k" := (bind m (fun _ => k))
  (at level 100, right associativity).

Inductive InitialData : Type :=
| InitialString (s : jsstring)
| InitialFunction (f : jsstring -> M jsstring).

(** [Logger.WriteStreamOptions] *)
Record WriteStreamOptions : Type := {
  path : jsstring;
  mode : FileWriteStreamMode;
  renameFile : option (jsstring -> Stats -> M unit);
  initialData : option InitialData
}.

(** ** The file system ([node:fs])

    Files are found by their absolute path; a stream writes the file at the
    path it was opened on, and what it writes reaches the file at once. *)

Definition fs_stat (file : jsstring) : M Stats :=
  w <- get ;;
  match files w !! file with
  | Some (FsFile _ b c) => ret {| isFile := true; birthtimeMs := b; ctimeMs := c |}
  | Some FsDir => ret {| isFile := false; birthtimeMs := 0; ctimeMs := 0 |}
  | None => throw (lit "ENOENT")
  end.

(** [stat(file).catch(() => null)] *)
Definition stat_or_null (file : jsstring) : M (option Stats) :=
  fun w =>
    match fs_stat file w with
    | Ok s w' => Ok (Some s) w'
    | Throw _ w' => Ok None w'
    | Pending w' => Pending w'
    | OutOfFuel => OutOfFuel
    end.

Definition readFile (file : jsstring) : M jsstring :=
  w <- get ;;
  match files w !! file with
  | Some (FsFile c _ _) => ret (utf8_decode c)
  | Some FsDir => throw (lit "EISDIR")
  | None => throw (lit "ENOENT")
  end.

Definition writeFile (file : jsstring) (data : jsstring) : M unit :=
  w <- get ;;
  match files w !! file with
  | Some (FsFile _ b _) =>
      modify (with_files (insert file (FsFile (utf8_encode data) b (now w))))
  | Some FsDir => throw (lit "EISDIR")
  | None =>
      modify (with_files (insert file (FsFile (utf8_encode data) (now w) (now w))))
  end.

Definition rename (oldPath newPath : jsstring) : M unit :=
  w <- get ;;
  match files w !! oldPath, files w !! newPath with
  | None, _ => throw (lit "ENOENT")
  | Some _, Some FsDir => throw (lit "EISDIR")
  | Some node, _ =>
      modify (with_files (fun fs => <[newPath := node]> (delete oldPath fs)))
  end.

(** [mkdir(dir, { recursive: true })] *)
Definition mkdir (d : jsstring) : M unit :=
  w <- get ;;
  match files w !! d with
  | Some (FsFile _ _ _) => throw (lit "EEXIST")
  | _ => modify (with_files (insert d FsDir))
  end.

(** [createWriteStream(file, { flags })] followed by the wait for its
    ['open'] event, which never comes when the file cannot be opened. *)
Definition createWriteStream (file : jsstring) (append : bool) : M sid :=
  w <- get ;;
  match files w !! file with
  | Some FsDir => Pending
  | node =>
      let s := fresh (dom (streams w)) in
      let node' :=
        match node with
        | Some (FsFile c b ch) => if append then FsFile c b ch else FsFile [] b (now w)
        | _ => FsFile [] (now w) (now w)
        end in
      modify (with_files (insert file node')) ;;;
      modify (with_streams (insert s {| ws_path := file; closed := false;
                                        destroyed := false; written := [] |})) ;;;
      ret s
  end.

(** [stream.write(data, 'utf-8')] *)
Definition WriteStream_write (s : sid) (data : jsstring) : M unit :=
  w <- get ;;
  match streams w !! s with
  | Some ws =>
      if closed ws || destroyed ws then ret tt
      else
        modify (with_streams
                  (insert s {| ws_path := ws_path ws; closed := false;
                               destroyed := false;
                               written := written ws ++ [data] |})) ;;;
        match files w !! ws_path ws with
        | Some (FsFile c b _) =>
            modify (with_files
                      (insert (ws_path ws) (FsFile (c ++ utf8_encode data) b (now w))))
        | _ => ret tt
        end
  | None => throw (lit "TypeError")
  end.

(** [stream.close(callback)]: the handle is released and the callback runs. *)
Definition WriteStream_close (s : sid) : M unit :=
  modify (with_streams
            (alter (fun ws => {| ws_path := ws_path ws; closed := true;
                                 destroyed := true; written := written ws |}) s)).

(** A property of an options object: missing, or present with a value that
    may be [undefined] or [null]. *)
Inductive Field (A : Type) : Type :=
| Absent
| Undefined
| Null
| Value (a : A).

Arguments Absent {A}.
Arguments Undefined {A}.
Arguments Null {A}.
Arguments Value {A} a.

(** [Logger.Options] *)
Record Options : Type := {
  opt_formatter : Field FormatterRef;
  opt_parent : Field loc;
  opt_label : Field jsstring;
  opt_writeStream : Field sid;
  opt_objectInspectOptions : Field InspectOptions;
  opt_logLevel : Field LogLevel;
  opt_writeLevel : Field LogLevel
}.

(** [new Logger()] without options, and [{}]. *)
Definition no_options : Options :=
  {| opt_formatter := Absent; opt_parent := Absent; opt_label := Absent;
     opt_writeStream := Absent; opt_objectInspectOptions := Absent;
     opt_logLevel := Absent; opt_writeLevel := Absent |}.

(** [a ?? d] *)
Definition nullish_or {A} (a : Field A) (d : A) : A :=
  match a with
  | Value v => v
  | _ => d
  end.

(** The value a field takes when a property is stored into it. *)
Definition stored {A} (a : Field A) : option A :=
  match a with
  | Value v => Some v
  | _ => None
  end.

(** [{ ...a, ...b }], property by property. *)
Definition spread_field {A} (a b : Field A) : Field A :=
  match b with
  | Absent => a
  | _ => b
  end.

Definition spread (a b : Options) : Options :=
  {| opt_formatter := spread_field (opt_formatter a) (opt_formatter b);
     opt_parent := spread_field (opt_parent a) (opt_parent b);
     opt_label := spread_field (opt_label a) (opt_label b);
     opt_writeStream := spread_field (opt_writeStream a) (opt_writeStream b);
     opt_objectInspectOptions :=
       spread_field (opt_objectInspectOptions a) (opt_objectInspectOptions b);
     opt_logLevel := spread_field (opt_logLevel a) (opt_logLevel b);
     opt_writeLevel := spread_field (opt_writeLevel a) (opt_writeLevel b) |}.

Definition of_defined {A} (a : option A) : Field A :=
  match a with
  | Some v => Value v
  | None => Undefined
  end.

Definition of_nullable {A} (a : option A) : Field A :=
  match a with
  | Some v => Value v
  | None => Null
  end.

Section Program.

Variable host : Host.

(** ** Dates, as the host reads and shows them *)

(** [new Date(string)] *)
Definition Date_of_string (s : jsstring) : Date :=
  match parse_iso_utc s with
  | Some t => Some t
  | None => Date_parse_host host s
  end.

Definition LocalTime (t : Z) : Z := t + LocalTZA host t.
Definition getHours (t : Z) : Z := (LocalTime t / msPerHour) mod 24.
Definition getMinutes (t : Z) : Z := (LocalTime t / msPerMinute) mod 60.
Definition getSeconds (t : Z) : Z := (LocalTime t / msPerSecond) mod 60.
Definition getMilliseconds (t : Z) : Z := LocalTime t mod 1000.

Definition toISOString (date : Date) : M jsstring :=
  match date with
  | Some t => ret (iso_of_time t)
  | None => throw (lit "RangeError: Invalid time value")
  end.

(** ** [Utils] *)

Definition formatDateFileName (date : Date) : M jsstring :=
  iso <- toISOString date ;;
  match date with
  | Some t =>
      ret (firstn 10 iso ++ lit "-" ++ Number_toString (getHours t)
             ++ lit "-" ++ Number_toString (getMinutes t)
             ++ lit "-" ++ Number_toString (getSeconds t)
             ++ lit "-" ++ Number_toString (getMilliseconds t))
  | None => ret []
  end.

Definition logDateHeader (date : Date) : M jsstring :=
  iso <- toISOString date ;;
  ret (lit "[" ++ iso ++ lit "]").

Definition getFileCreationDate (file : jsstring) (statData : option Stats)
    (lines : option (list jsstring)) : M Date :=
  statData <- match statData with Some s => ret s | None => fs_stat file end ;;
  lines <- match lines with
           | Some l => ret l
           | None => content <- readFile file ;; ret (split_on 10 content)
           end ;;
  let createdAt : Date :=
    if birthtimeMs statData =? 0 then Some (ctimeMs statData)
    else Some (birthtimeMs statData) in
  match lines with
  | [] => throw (lit "TypeError")
  | first :: _ =>
      let header := trim first in
      if negb (jsstring_eqb header []) && startsWith header 91 && endsWith header 93
      then ret (Date_of_string (substring_inner header))
      else ret createdAt
  end.

Definition gzipCompressLog (file : jsstring) (statData : Stats) : M unit :=
  let filePathInfo := path_parse file in
  content <- readFile file ;;
  let lines := split_on 10 content in
  createdAt <- getFileCreationDate file (Some statData) (Some lines) ;;
  name <- formatDateFileName createdAt ;;
  let newFile := path_join (dir filePathInfo) (name ++ ext filePathInfo ++ lit ".gz") in
  data <- match gzip host (utf8_encode (join_with 10 lines)) with
          | inl result => ret result
          | inr error => throw error
          end ;;
  writeFile file (utf8_decode data) ;;;
  rename file newFile.

(** ** [Logger.createFileWriteStream] (static) *)

Definition truthy_initialData (i : InitialData) : bool :=
  match i with
  | InitialString s => negb (jsstring_eqb s [])
  | InitialFunction _ => true
  end.

Definition Logger_createFileWriteStream (options : WriteStreamOptions) : M sid :=
  initial <- match initialData options with
             | Some i => ret i
             | None =>
                 w <- get ;;
                 header <- logDateHeader (Some (now w)) ;;
                 ret (InitialString header)
             end ;;
  w <- get ;;
  let file := path_resolve (cwd w) (path options) in
  let filePathInfo := path_parse file in
  fileStat <- stat_or_null file ;;
  text <- match initial with
          | InitialString s => ret s
          | InitialFunction f => f file
          end ;;
  let initialData := text ++ [10] in
  match fileStat with
  | Some st => if isFile st then ret tt else throw (lit "Write stream path is not a file")
  | None => ret tt
  end ;;;
  mkdir (dir filePathInfo) ;;;
  match mode options with
  | Append => ret tt
  | Truncate =>
      match fileStat with
      | None => ret tt
      | Some _ => writeFile file initialData
      end
  | Rename =>
      match fileStat with
      | None => ret tt
      | Some st =>
          match renameFile options with
          | Some f => f file st
          | None => gzipCompressLog file st
          end ;;;
          newStat <- stat_or_null file ;;
          match newStat with
          | None => writeFile file initialData
          | Some _ => ret tt
          end
      end
  end ;;;
  writeStream <- createWriteStream file
                   (match mode options with Append => true | _ => false end) ;;
  content <- readFile file ;;
  when (truthy_initialData initial && jsstring_eqb content [])
       (WriteStream_write writeStream initialData) ;;;
  ret writeStream.

(** ** [Logger]

    Walks along the parent chain take a [fuel]: each call to an ancestor
    spends one unit, and a chain longer than the fuel ends in [OutOfFuel]. *)

Definition set_own_stream (value : option sid) (o : Logger) : Logger :=
  {| _writeStream := value; formatter := formatter o; parent := parent o;
     label := label o; objectInspectOptions := objectInspectOptions o;
     logLevel := logLevel o; writeLevel := writeLevel o;
     listeners := listeners o |}.

Definition add_listener (event : LogLevel) (listener : nat) (o : Logger) : Logger :=
  {| _writeStream := _writeStream o; formatter := formatter o; parent := parent o;
     label := label o; objectInspectOptions := objectInspectOptions o;
     logLevel := logLevel o; writeLevel := writeLevel o;
     listeners := listeners o ++ [(event, listener)] |}.

(** Reading [this]: a logger that is referred to exists. *)
Definition this_logger (l : loc) : M Logger :=
  w <- get ;;
  match loggers w !! l with
  | Some o => ret o
  | None => throw (lit "TypeError")
  end.

Definition the_stream (s : sid) : M WriteStream :=
  w <- get ;;
  match streams w !! s with
  | Some ws => ret ws
  | None => throw (lit "TypeError")
  end.

(** [get writeStream()] *)
Fixpoint get_writeStream (fuel : nat) (l : loc) : M (option sid) :=
  match fuel with
  | O => fun _ => OutOfFuel
  | S f =>
      o <- this_logger l ;;
      match _writeStream o with
      | Some s => ret (Some s)
      | None =>
          match parent o with
          | Some p => get_writeStream f p
          | None => ret None
          end
      end
  end.

(** [set writeStream(value)] *)
Fixpoint set_writeStream (fuel : nat) (l : loc) (value : option sid) : M unit :=
  match fuel with
  | O => fun _ => OutOfFuel
  | S f =>
      o <- this_logger l ;;
      modify (with_loggers (alter (set_own_stream value) l)) ;;;
      match parent o with
      | Some p =>
          theirs <- get_writeStream f p ;;
          match theirs with
          | None => set_writeStream f p value
          | Some _ => ret tt
          end
      | None => ret tt
      end
  end.

(** [get isWriteStreamClosed()] *)
Definition isWriteStreamClosed (fuel : nat) (l : loc) : M bool :=
  ws <- get_writeStream fuel l ;;
  match ws with
  | None => ret true
  | Some s =>
      stream <- the_stream s ;;
      ret (closed stream || destroyed stream)
  end.

Definition level_ge (level threshold : LogLevel) : bool :=
  LogLevel_value threshold <=? LogLevel_value level.

(** The constructor.  The object is made with its fields, and the stream
    goes through the setter once the parent is in place. *)
Definition Logger_new (fuel : nat) (options : Options) : M loc :=
  w <- get ;;
  let l : loc := fresh (dom (loggers w)) in
  let writeLevelTest : bool :=
    (* [options?.writeLevel ?? options?.writeLevel !== null]: the comparison
       binds tighter than [??], and the result is the test of the
       conditional *)
    match opt_writeLevel options with
    | Value v => negb (LogLevel_value v =? 0)
    | Null => false
    | Absent | Undefined => true
    end in
  modify (with_loggers (insert l
    {| _writeStream := None;
       formatter := nullish_or (opt_formatter options) (DefaultFormatter l);
       parent := stored (opt_parent options);
       label := stored (opt_label options);
       objectInspectOptions := stored (opt_objectInspectOptions options);
       logLevel := Some (nullish_or (opt_logLevel options) Info);
       writeLevel :=
         if writeLevelTest then Some (nullish_or (opt_logLevel options) Info)
         else None;
       listeners := [] |})) ;;;
  set_writeStream fuel l (stored (opt_writeStream options)) ;;;
  ret l.

(** [EventEmitter.prototype.on] *)
Definition on (l : loc) (event : LogLevel) (listener : nat) : M unit :=
  _ <- this_logger l ;;
  modify (with_loggers (alter (add_listener event listener) l)).

(** The calls [super.emit] makes: the listeners of the event, in order. *)
Definition dispatch (l : loc) (o : Logger) (event : LogLevel) (data : EventData)
    : list ListenerCall :=
  map (fun '(_, h) => {| call_at := l; call_listener := h;
                         call_event := event; call_data := data |})
      (filter (fun '(e, _) => e = event) (listeners o)).

Fixpoint emit (fuel : nat) (l : loc) (event : LogLevel) (data : EventData) : M bool :=
  match fuel with
  | O => fun _ => OutOfFuel
  | S f =>
      o <- this_logger l ;;
      let invoked := dispatch l o event data in
      modify (with_calls (fun cs => cs ++ invoked)) ;;;
      let result := negb (bool_decide (invoked = [])) in
      match parent o with
      | Some p => _ <- emit f p event data ;; ret result
      | None => ret result
      end
  end.

Definition print (fuel : nat) (l : loc) (level : LogLevel) (data : list JSValue)
    : M unit :=
  o <- this_logger l ;;
  w <- get ;;
  let options := {| fo_level := level; fo_messages := data; fo_logger := l |} in
  let pretty := formatConsoleLog host (formatter o) w options in
  let simple := formatWriteStreamLog host (formatter o) w options in
  _ <- emit fuel l level
         {| ev_options := options; ev_pretty := pretty; ev_simple := simple |} ;;
  o <- this_logger l ;;
  when (match logLevel o with
        | Some threshold => level_ge level threshold
        | None => false
        end)
       (modify (with_console (fun out => out ++ [(level, pretty)]))) ;;;
  isClosed <- isWriteStreamClosed fuel l ;;
  when (negb isClosed
        && match writeLevel o with
           | Some threshold => level_ge level threshold
           | None => false
           end)
       (ws <- get_writeStream fuel l ;;
        match ws with
        | Some s => WriteStream_write s (simple ++ [10])
        | None => ret tt
        end).

Definition error (fuel : nat) (l : loc) (data : list JSValue) : M unit :=
  print fuel l Error data.
Definition warning (fuel : nat) (l : loc) (data : list JSValue) : M unit :=
  print fuel l Warn data.
Definition info (fuel : nat) (l : loc) (data : list JSValue) : M unit :=
  print fuel l Info data.
Definition debug (fuel : nat) (l : loc) (data : list JSValue) : M unit :=
  print fuel l Debug data.
Definition log (fuel : nat) (l : loc) (data : list JSValue) : M unit :=
  info fuel l data.
Definition warn (fuel : nat) (l : loc) (data : list JSValue) : M unit :=
  warning fuel l data.
Definition err (fuel : nat) (l : loc) (data : list JSValue) : M unit :=
  error fuel l data.

(** [createFileWriteStream] of an instance *)
Definition createFileWriteStream (fuel : nat) (l : loc) (options : WriteStreamOptions)
    : M loc :=
  isClosed <- isWriteStreamClosed fuel l ;;
  if negb isClosed then throw (lit "Write stream already created")
  else
    s <- Logger_createFileWriteStream options ;;
    set_writeStream fuel l (Some s) ;;;
    ret l.

(** [closeFileWriteStream]: the promise settles when [resolve] is called. *)
Definition closeFileWriteStream (fuel : nat) (l : loc) : M loc :=
  isClosed <- isWriteStreamClosed fuel l ;;
  if negb isClosed then ret l
  else
    ws <- get_writeStream fuel l ;;
    match ws with
    | Some s => WriteStream_close s ;;; ret l
    | None => Pending
    end.

Definition toJSON (fuel : nat) (l : loc) : M Options :=
  o <- this_logger l ;;
  ws <- get_writeStream fuel l ;;
  ret {| opt_formatter := Value (formatter o);
         opt_parent := of_defined (parent o);
         opt_label := of_defined (label o);
         opt_writeStream := of_defined ws;
         opt_objectInspectOptions := of_defined (objectInspectOptions o);
         opt_logLevel := of_nullable (logLevel o);
         opt_writeLevel := of_nullable (writeLevel o) |}.

Definition with_parent (p : Field loc) (o : Options) : Options :=
  {| opt_formatter := opt_formatter o; opt_parent := p; opt_label := opt_label o;
     opt_writeStream := opt_writeStream o;
     opt_objectInspectOptions := opt_objectInspectOptions o;
     opt_logLevel := opt_logLevel o; opt_writeLevel := opt_writeLevel o |}.

Definition clone (fuel : nat) (l : loc) (options : Options) (inheritParent : bool)
    : M loc :=
  json <- toJSON fuel l ;;
  o <- this_logger l ;;
  Logger_new fuel
    (spread (with_parent (if inheritParent then of_defined (parent o) else Value l) json)
            options).

End Program.

(** ** Vocabulary of the specification

    The parent chain of a logger, the stream it resolves to, and the worlds
    the operations lead to. *)

(** [chain h l cs]: following [parent] from [l] visits exactly [cs], which
    starts with [l] and ends with a logger that has no parent. *)
Inductive chain (h : gmap loc Logger) : loc -> list loc -> Prop :=
| chain_root l o :
    h !! l = Some o -> parent o = None -> chain h l [l]
| chain_step l o p cs :
    h !! l = Some o -> parent o = Some p -> chain h p cs -> chain h l (l :: cs).

(** The first stream of its own that a logger among [cs] has. *)
Fixpoint first_stream (h : gmap loc Logger) (cs : list loc) : option sid :=
  match cs with
  | [] => None
  | l :: rest =>
      match h !! l with
      | Some o =>
          match _writeStream o with
          | Some s => Some s
          | None => first_stream h rest
          end
      | None => first_stream h rest
      end
  end.

(** The loggers an assignment to the head of [cs] reaches: all of them while
    no ancestor resolves to a stream, the head alone otherwise. *)
Definition reached (h : gmap loc Logger) (cs : list loc) : list loc :=
  match first_stream h (tail cs) with
  | None => cs
  | Some _ => take 1 cs
  end.

(** The store once the loggers [ls] had [value] stored as their own stream. *)
Fixpoint assign_all (value : option sid) (ls : list loc) (h : gmap loc Logger)
    : gmap loc Logger :=
  match ls with
  | [] => h
  | l :: rest => assign_all value rest (alter (set_own_stream value) l h)
  end.

(** The part of a chain that starts at [a]. *)
Fixpoint dropwhile_to (a : loc) (cs : list loc) : list loc :=
  match cs with
  | [] => []
  | c :: rest => if decide (c = a) then cs else dropwhile_to a rest
  end.

(** Neither closed nor destroyed. *)
Definition is_open (ws : WriteStream) : Prop := closed ws = false /\ destroyed ws = false.

(** The message of the error [createFileWriteStream] throws. *)
Definition already_created : jsstring := lit "Write stream already created".

(** The listener calls one logger of the store makes for an event. *)
Definition dispatch_at (h : gmap loc Logger) (event : LogLevel) (data : EventData)
    (a : loc) : list ListenerCall :=
  match h !! a with
  | Some o => dispatch a o event data
  | None => []
  end.

(** The threshold is not null and the level reaches it. *)
Definition threshold_met (threshold : option LogLevel) (level : LogLevel) : bool :=
  match threshold with
  | Some t => level_ge level t
  | None => false
  end.

(** The world once the open stream [s] was given [data]. *)
Definition write_effect (s : sid) (ws : WriteStream) (data : jsstring) (w : World)
    : World :=
  let w1 := with_streams
              (insert s {| ws_path := ws_path ws; closed := false; destroyed := false;
                           written := written ws ++ [data] |}) w in
  match files w !! ws_path ws with
  | Some (FsFile c b _) =>
      with_files (insert (ws_path ws) (FsFile (c ++ utf8_encode data) b (now w))) w1
  | _ => w1
  end.

(** The event data [print] emits, and the worlds it passes through: after
    the event went up the chain [cs], after the console, after the file. *)
Definition print_event (host : Host) (w : World) (l : loc) (o : Logger)
    (level : LogLevel) (data : list JSValue) : EventData :=
  let options := {| fo_level := level; fo_messages := data; fo_logger := l |} in
  {| ev_options := options;
     ev_pretty := formatConsoleLog host (formatter o) w options;
     ev_simple := formatWriteStreamLog host (formatter o) w options |}.

Definition after_emit (host : Host) (w : World) (l : loc) (o : Logger)
    (cs : list loc) (level : LogLevel) (data : list JSValue) : World :=
  with_calls (fun done => done ++ flat_map (dispatch_at (loggers w) level
                                              (print_event host w l o level data)) cs) w.

Definition after_console (host : Host) (w : World) (l : loc) (o : Logger)
    (cs : list loc) (level : LogLevel) (data : list JSValue) : World :=
  if threshold_met (logLevel o) level
  then with_console
         (fun out => out ++ [(level, ev_pretty (print_event host w l o level data))])
         (after_emit host w l o cs level data)
  else after_emit host w l o cs level data.

Definition file_step (host : Host) (w : World) (l : loc) (o : Logger)
    (cs : list loc) (level : LogLevel) (data : list JSValue) (w2 : World) : World :=
  match first_stream (loggers w) cs with
  | Some s =>
      match streams w !! s with
      | Some ws =>
          if negb (closed ws || destroyed ws) && threshold_met (writeLevel o) level
          then write_effect s ws (ev_simple (print_event host w l o level data) ++ [10]) w2
          else w2
      | None => w2
      end
  | None => w2
  end.

Definition after_print (host : Host) (w : World) (l : loc) (o : Logger)
    (cs : list loc) (level : LogLevel) (data : list JSValue) : World :=
  file_step host w l o cs level data (after_console host w l o cs level data).

(** The creation date [getFileCreationDate] finds when it is given the
    stat data and the lines. *)
Definition header_date (host : Host) (st : Stats) (lines : list jsstring) : Date :=
  let header := trim (hd [] lines) in
  if negb (jsstring_eqb header []) && startsWith header 91 && endsWith header 93
  then Date_of_string host (substring_inner header)
  else if birthtimeMs st =? 0 then Some (ctimeMs st) else Some (birthtimeMs st).

(** The name [formatDateFileName] gives a valid date. *)
Definition date_file_name (host : Host) (t : Z) : jsstring :=
  firstn 10 (iso_of_time t) ++ lit "-" ++ Number_toString (getHours host t)
    ++ lit "-" ++ Number_toString (getMinutes host t)
    ++ lit "-" ++ Number_toString (getSeconds host t)
    ++ lit "-" ++ Number_toString (getMilliseconds host t).

(** Where [gzipCompressLog] moves a file created at [t]. *)
Definition rotated_path (host : Host) (file : jsstring) (t : Z) : jsstring :=
  path_join (dir (path_parse file))
            (date_file_name host t ++ ext (path_parse file) ++ lit ".gz").

(** The files and the options of the rotation scenario. *)
Definition latest_log : jsstring := lit "/logs/latest.log".
Definition old_header : jsstring := lit "[2023-01-01T00:00:00.000Z]".


Definition rotated_log : jsstring := lit "/logs/2023-01-01-0-0-0-0.log.gz".

(** The chain of an optional parent. *)
Definition ancestry (h : gmap loc Logger) (p : option loc) (cs : list loc) : Prop :=
  match p with
  | Some a => chain h a cs
  | None => cs = []
  end.

(** The logger the constructor leaves at [l]. *)
Definition constructed (l : loc) (options : Options) : Logger :=
  {| _writeStream := stored (opt_writeStream options);
     formatter := nullish_or (opt_formatter options) (DefaultFormatter l);
     parent := stored (opt_parent options);
     label := stored (opt_label options);
     objectInspectOptions := stored (opt_objectInspectOptions options);
     logLevel := Some (nullish_or (opt_logLevel options) Info);
     writeLevel := match opt_writeLevel options with
                   | Null => None
                   | _ => Some (nullish_or (opt_logLevel options) Info)
                   end;
     listeners := [] |}.

(** What [toJSON] returns for a logger that resolves to the stream [ws]. *)
Definition json_of (o : Logger) (ws : option sid) : Options :=
  {| opt_formatter := Value (formatter o);
     opt_parent := of_defined (parent o);
     opt_label := of_defined (label o);
     opt_writeStream := of_defined ws;
     opt_objectInspectOptions := of_defined (objectInspectOptions o);
     opt_logLevel := of_nullable (logLevel o);
     opt_writeLevel := of_nullable (writeLevel o) |}.

(** The options [clone] hands to the constructor. *)
Definition clone_options (l : loc) (o : Logger) (ws : option sid)
    (options : Options) (inheritParent : bool) : Options :=
  spread (with_parent (if inheritParent then of_defined (parent o) else Value l)
                      (json_of o ws))
         options.

(** The call [m] returns, and the listener calls it adds are those of the
    event of [level], made along the chain [cs] from its head on. *)
Definition bubbles (host : Host) (w : World) (l : loc) (o : Logger) (cs : list loc)
    (level : LogLevel) (data : list JSValue) (m : M unit) : Prop :=
  exists w',
    m w = Ok tt w' /\
    calls w' = calls w ++ flat_map (dispatch_at (loggers w) level
                                      (print_event host w l o level data)) cs.







(** The stat data of a regular file. *)
Definition file_stats (b ch : Z) : Stats :=
  {| isFile := true; birthtimeMs := b; ctimeMs := ch |}.


(** [P] holds of the [n] integers from [z] on. *)
Fixpoint all_from (n : nat) (z : Z) (P : Z -> bool) : bool :=
  match n with
  | O => true
  | S k => if P z then all_from k (z + 1) P else false
  end.

Definition two_digits (v : Z) : jsstring := [48 + v / 10; 48 + v mod 10].
Definition three_digits (v : Z) : jsstring :=
  [48 + v / 100; 48 + v / 10 mod 10; 48 + v mod 10].
Definition four_digits (v : Z) : jsstring :=
  [48 + v / 1000; 48 + v / 100 mod 10; 48 + v / 10 mod 10; 48 + v mod 10].

(** Year of the era, month and day of a day of the era, as
    [civil_from_days] finds them, and the way back of [days_from_civil]. *)
Definition era_date (doe : Z) : Z * Z * Z :=
  let yoe := (doe - doe / 1460 + doe / 36524 - doe / 146096) / 365 in
  let doy := doe - (365 * yoe + yoe / 4 - yoe / 100) in
  let mp := (5 * doy + 2) / 153 in
  let d := doy - (153 * mp + 2) / 5 + 1 in
  let m := if mp <? 10 then mp + 3 else mp - 9 in
  (yoe, m, d).

Definition era_day (yoe m d : Z) : Z :=
  let mp := if m <=? 2 then m + 9 else m - 3 in
  let doy := (153 * mp + 2) / 5 + d - 1 in
  yoe * 365 + yoe / 4 - yoe / 100 + doy.

Definition era_date_ok (doe : Z) : bool :=
  let '(yoe, m, d) := era_date doe in
  let y := if m <=? 2 then yoe + 1 else yoe in
  (0 <=? yoe) && (yoe <=? 399) && (1 <=? m) && (m <=? 12) && (1 <=? d)
  && (d <=? days_in_month y m) && (era_day yoe m d =? doe)
  && (if 146037 <=? doe then (yoe =? 399) && (m <=? 2) else y <=? 399).

(** A day of a year that starts on the first of March: its month and day
    are a date of the calendar (the 366th is the 29th of February), from
    which the day of the year is found again; January comes on day 306. *)
Definition year_day_ok (doy : Z) : bool :=
  let mp := (5 * doy + 2) / 153 in
  let d := doy - (153 * mp + 2) / 5 + 1 in
  let m := if mp <? 10 then mp + 3 else mp - 9 in
  (1 <=? m) && (m <=? 12) && (1 <=? d)
  && ((d <=? days_in_month 1 m) || ((doy =? 365) && (m =? 2) && (d =? 29)))
  && ((153 * (if m <=? 2 then m + 9 else m - 3) + 2) / 5 + d - 1 =? doy)
  && (if 306 <=? doy then m <=? 2 else 3 <=? m).

Definition digits_ok (v : Z) : bool :=
  jsstring_eqb (padStart0 2 (Number_toString v)) (two_digits v)
  && bool_decide (digits_val 0 (two_digits v) = Some v).

Definition digits3_ok (v : Z) : bool :=
  jsstring_eqb (padStart0 3 (Number_toString v)) (three_digits v)
  && bool_decide (digits_val 0 (three_digits v) = Some v).

Definition digits4_ok (v : Z) : bool :=
  jsstring_eqb (padStart0 4 (Number_toString v)) (four_digits v)
  && bool_decide (digits_val 0 (four_digits v) = Some v).

(** The store the constructor leaves: the new logger is added, and its
    stream is assigned to it and to whom the assignment reaches. *)
Definition constructed_store (l : loc) (options : Options) (cs : list loc)
    (h : gmap loc Logger) : gmap loc Logger :=
  let h1 := <[l := set_own_stream None (constructed l options)]> h in
  assign_all (stored (opt_writeStream options)) (reached h1 (l :: cs)) h1.

(** ** A host and some worlds to run the program in *)

(** gzip without compression: a member whose deflate stream is made of
    stored blocks, with the CRC-32 and the length of the data at its end. *)
Fixpoint crc32_shift (n : nat) (c : Z) : Z :=
  match n with
  | O => c
  | S k =>
      crc32_shift k (if Z.odd c then Z.lxor (Z.shiftr c 1) 3988292384
                     else Z.shiftr c 1)
  end.

Definition crc32 (bs : list Z) : Z :=
  Z.lxor (fold_left (fun c b => crc32_shift 8 (Z.lxor c b)) bs 4294967295) 4294967295.

Fixpoint little_endian (n : nat) (v : Z) : list Z :=
  match n with
  | O => []
  | S k => Z.land v 255 :: little_endian k (Z.shiftr v 8)
  end.

Fixpoint stored_blocks (fuel : nat) (bs : list Z) : list Z :=
  match fuel with
  | O => []
  | S f =>
      let chunk := firstn (Z.to_nat 65535) bs in
      let rest := skipn (Z.to_nat 65535) bs in
      let len := Z.of_nat (length chunk) in
      (match rest with [] => 1 | _ => 0 end)
        :: little_endian 2 len ++ little_endian 2 (Z.lxor len 65535) ++ chunk
        ++ match rest with [] => [] | _ => stored_blocks f rest end
  end.

Definition gzip_stored (bs : list Z) : list Z :=
  [31; 139; 8; 0; 0; 0; 0; 0; 0; 255]
    ++ stored_blocks (S (length bs)) bs
    ++ little_endian 4 (crc32 bs)
    ++ little_endian 4 (Z.of_nat (length bs)).

Definition level_name (level : LogLevel) : jsstring :=
  match level with
  | Debug => lit "DEBUG"
  | Info => lit "INFO"
  | Warn => lit "WARN"
  | Error => lit "ERROR"
  end.

Definition message_text (v : JSValue) : jsstring :=
  match v with
  | VString s => s
  | VObject repr => repr
  end.

Definition plain_line (options : FormatterFormatOptions) : jsstring :=
  join_with 32 (level_name (fo_level options) :: map message_text (fo_messages options)).

(** A host whose local time is [tz] milliseconds ahead of UTC. *)
Definition sample_host (tz : Z) : Host :=
  {| LocalTZA := fun _ => tz;
     gzip := fun bs => inl (gzip_stored bs);
     Date_parse_host := fun _ => None;
     formatConsoleLog := fun _ _ options => lit "> " ++ plain_line options;
     formatWriteStreamLog := fun _ _ options => plain_line options |}.

Definition utc_host : Host := sample_host 0.
Definition manila_host : Host := sample_host 28800000.

Definition plain_logger (p : option loc) (ws : option sid)
    (ls : list (LogLevel * nat)) : Logger :=
  {| _writeStream := ws; formatter := CustomFormatter 0; parent := p;
     label := None; objectInspectOptions := None;
     logLevel := Some Info; writeLevel := Some Info; listeners := ls |}.

Definition app_log : jsstring := lit "/logs/app.log".

(** Three loggers, root 0, its child 1 and grandchild 2, with the given
    streams of their own; stream 0 is closed and stream 1 is open. *)
Definition family (root mid leaf : option sid) : World :=
  {| loggers :=
       <[0%nat := plain_logger None root [(Info, 1%nat)]]>
         (<[1%nat := plain_logger (Some 0%nat) mid [(Info, 2%nat); (Error, 3%nat)]]>
            (<[2%nat := plain_logger (Some 1%nat) leaf [(Info, 4%nat)]]> ∅));
     streams :=
       <[0%nat := {| ws_path := lit "/logs/old.log"; closed := true;
                     destroyed := true; written := [] |}]>
         (<[1%nat := {| ws_path := app_log; closed := false;
                        destroyed := false; written := [] |}]> ∅);
     files := <[app_log := FsFile [] 0 0]> ∅;
     console := [];
     calls := [];
     now := 1700000000000;
     cwd := lit "/logs" |}.

(** The rotation scenario: [latest.log] holds the old header and one line. *)
Definition scenario_world : World :=
  {| loggers := ∅; streams := ∅;
     files := <[latest_log := FsFile (old_header ++ 10 :: lit "hello" ++ [10])
                                     1672531200000 1672531200000]> ∅;
     console := []; calls := []; now := 1700000000000; cwd := lit "/logs" |}.

Definition empty_world : World :=
  {| loggers := ∅; streams := ∅; files := ∅; console := []; calls := [];
     now := 1700000000000; cwd := lit "/logs" |}.

Definition both_levels : Options :=
  {| opt_formatter := Absent; opt_parent := Absent; opt_label := Absent;
     opt_writeStream := Absent; opt_objectInspectOptions := Absent;
     opt_logLevel := Value Info; opt_writeLevel := Value Error |}.

Definition only_logLevel (level : LogLevel) : Options :=
  {| opt_formatter := Absent; opt_parent := Absent; opt_label := Absent;
     opt_writeStream := Absent; opt_objectInspectOptions := Absent;
     opt_logLevel := Value level; opt_writeLevel := Absent |}.

Definition append_app_log : WriteStreamOptions :=
  {| path := lit "app.log"; mode := Append; renameFile := None; initialData := None |}.

Definition hi : list JSValue := [VString (lit "hi")].

(** A logger made with the defaults, on its own. *)
Definition lone_world : World :=
  with_loggers (insert 0%nat (constructed 0%nat no_options)) empty_world.





(** A host whose codec fails. *)
Definition failing_host : Host :=
  {| LocalTZA := fun _ => 0;
     gzip := fun _ => inr (lit "Z_MEM_ERROR");
     Date_parse_host := fun _ => None;
     formatConsoleLog := fun _ _ options => plain_line options;
     formatWriteStreamLog := fun _ _ options => plain_line options |}.

(** [{ parent, writeStream }] *)
Definition child_options (p : loc) (ws : Field sid) : Options :=
  {| opt_formatter := Absent; opt_parent := Value p; opt_label := Absent;
     opt_writeStream := ws; opt_objectInspectOptions := Absent;
     opt_logLevel := Absent; opt_writeLevel := Absent |}.

(** The family whose root holds the closed stream 0. *)
Definition closed_family : World := family (Some 0%nat) None None.

(** The world the static factory leaves when it appends to [app.log] there. *)
Definition closed_family_reopened : World :=
  match Logger_createFileWriteStream utc_host append_app_log closed_family with
  | Ok _ w1 => w1
  | _ => closed_family
  end.

(** * Properties *)

Ltac run := cbv [bind this_logger the_stream get ret modify throw when].

(** ** The parent chain *)

Lemma chain_det h l cs1 cs2 : chain h l cs1 -> chain h l cs2 -> cs1 = cs2.
Proof.
  intros H1; revert cs2.
  induction H1 as [l o Hl Hp | l o p cs Hl Hp Hc IH]; intros cs2 H2;
    inversion H2; subst; try congruence.
  assert (p0 = p) by congruence; subst.
  f_equal; auto.
Qed.

Lemma chain_suffix h l cs a :
  chain h l cs -> a ∈ cs -> exists pre suf, cs = pre ++ suf /\ chain h a suf.
Proof.
  induction 1 as [l o Hl Hp | l o p cs Hl Hp Hc IH]; intros Ha.
  - apply list_elem_of_singleton in Ha; subst.
    exists [], [l]; split; [reflexivity | econstructor; eauto].
  - apply elem_of_cons in Ha as [-> | Ha].
    + exists [], (l :: cs); split; [reflexivity | econstructor; eauto].
    + destruct (IH Ha) as (pre & suf & -> & Hs).
      exists (l :: pre), suf; split; [reflexivity | assumption].
Qed.

Lemma chain_NoDup h l cs : chain h l cs -> NoDup cs.
Proof.
  induction 1 as [l o Hl Hp | l o p cs Hl Hp Hc IH].
  - apply NoDup_singleton.
  - constructor; [| assumption].
    intros Hin.
    destruct (chain_suffix _ _ _ _ Hc Hin) as (pre & suf & -> & Hs).
    assert (Hfull : chain h l (l :: pre ++ suf)) by (econstructor; eauto).
    pose proof (chain_det _ _ _ _ Hs Hfull) as Heq.
    apply (f_equal length) in Heq; simpl in Heq; rewrite length_app in Heq; lia.
Qed.

Lemma chain_lookup h l cs a : chain h l cs -> a ∈ cs -> is_Some (h !! a).
Proof.
  induction 1 as [l o Hl Hp | l o p cs Hl Hp Hc IH]; intros Ha.
  - apply list_elem_of_singleton in Ha; subst; eauto.
  - apply elem_of_cons in Ha as [-> | Ha]; eauto.
Qed.

Lemma get_writeStream_chain fuel w l cs :
  chain (loggers w) l cs -> (length cs <= fuel)%nat ->
  get_writeStream fuel l w = Ok (first_stream (loggers w) cs) w.
Proof.
  intros Hc; revert fuel.
  induction Hc as [l o Hl Hp | l o p cs Hl Hp Hc IH]; intros [|f] Hf;
    simpl in Hf; try lia; simpl; run; rewrite Hl; simpl.
  - rewrite Hp. destruct (_writeStream o); reflexivity.
  - rewrite Hp. destruct (_writeStream o); [reflexivity |].
    apply IH; lia.
Qed.

Lemma assign_all_lookup value ls h a :
  assign_all value ls h !! a =
  if bool_decide (a ∈ ls) then set_own_stream value <$> h !! a else h !! a.
Proof.
  revert h; induction ls as [|l rest IH]; intros h; simpl.
  - reflexivity.
  - rewrite IH. rewrite lookup_alter.
    destruct (decide (a = l)) as [-> | Hne].
    + rewrite decide_True by reflexivity.
      rewrite (bool_decide_eq_true_2 (l ∈ l :: rest)) by left.
      case_bool_decide; destruct (h !! l); reflexivity.
    + rewrite decide_False by congruence.
      case_bool_decide as Hin; case_bool_decide as Hin'; try reflexivity.
      * exfalso; apply Hin'; right; assumption.
      * exfalso. apply elem_of_cons in Hin' as [? | ?]; [congruence | tauto].
Qed.

Lemma chain_alter h l cs (f : Logger -> Logger) a :
  (forall o, parent (f o) = parent o) ->
  chain h l cs -> chain (alter f a h) l cs.
Proof.
  intros Hf; induction 1 as [l o Hl Hp | l o p cs Hl Hp Hc IH].
  - destruct (decide (l = a)) as [-> | Hne].
    + apply (chain_root _ _ (f o)); [| rewrite Hf; assumption].
      rewrite lookup_alter, decide_True, Hl by reflexivity; reflexivity.
    + apply (chain_root _ _ o); [| assumption].
      rewrite lookup_alter, decide_False by congruence; assumption.
  - destruct (decide (l = a)) as [-> | Hne].
    + apply (chain_step _ _ (f o) p); [| rewrite Hf; assumption | assumption].
      rewrite lookup_alter, decide_True, Hl by reflexivity; reflexivity.
    + apply (chain_step _ _ o p); [| assumption | assumption].
      rewrite lookup_alter, decide_False by congruence; assumption.
Qed.

Lemma first_stream_alter h cs (f : Logger -> Logger) a :
  a ∉ cs -> first_stream (alter f a h) cs = first_stream h cs.
Proof.
  induction cs as [|c rest IH]; intros Ha; simpl; [reflexivity |].
  apply not_elem_of_cons in Ha as [Hne Ha].
  rewrite lookup_alter, decide_False by congruence.
  rewrite IH by assumption; reflexivity.
Qed.

Lemma first_stream_None h cs a o :
  first_stream h cs = None -> a ∈ cs -> h !! a = Some o -> _writeStream o = None.
Proof.
  induction cs as [|c rest IH]; intros Hn Ha Hl.
  - inversion Ha.
  - simpl in Hn. apply elem_of_cons in Ha as [-> | Ha].
    + rewrite Hl in Hn. destruct (_writeStream o); [discriminate | reflexivity].
    + apply IH; try assumption.
      destruct (h !! c) as [oc|]; [destruct (_writeStream oc); [discriminate |] |];
        assumption.
Qed.

Lemma first_stream_tail_None h cs :
  first_stream h cs = None -> first_stream h (tail cs) = None.
Proof.
  destruct cs as [|c rest]; simpl; [auto |].
  destruct (h !! c) as [oc|]; [destruct (_writeStream oc); [discriminate |] |]; auto.
Qed.

Lemma set_own_stream_parent value o : parent (set_own_stream value o) = parent o.
Proof. reflexivity. Qed.

Lemma set_writeStream_all fuel w l cs value :
  chain (loggers w) l cs -> (length cs <= fuel)%nat ->
  first_stream (loggers w) (tail cs) = None ->
  set_writeStream fuel l value w = Ok tt (with_loggers (assign_all value cs) w).
Proof.
  revert fuel w l.
  induction cs as [|c cs IH]; intros [|f] w l Hc Hf Hn;
    inversion Hc as [l' o Hl Hp | l' o p cs' Hl Hp Hc']; subst;
    simpl in Hf; try lia; simpl; run; rewrite Hl; simpl; rewrite Hp.
  - reflexivity.
  - pose proof (chain_NoDup _ _ _ Hc) as Hnd.
    apply NoDup_cons in Hnd as [Hnotin _].
    set (w1 := with_loggers (alter (set_own_stream value) c) w).
    assert (Hc1 : chain (loggers w1) p cs)
      by (apply chain_alter; [apply set_own_stream_parent | assumption]).
    rewrite (get_writeStream_chain f w1 p cs Hc1) by lia.
    simpl in Hn |- *. rewrite first_stream_alter by assumption.
    rewrite Hn.
    assert (Hn1 : first_stream (loggers w1) (tail cs) = None).
    { simpl. rewrite first_stream_alter.
      - apply first_stream_tail_None; assumption.
      - intros Hin; apply Hnotin.
        destruct cs; [inversion Hin | right; assumption]. }
    rewrite (IH f w1 p Hc1) by (assumption || lia).
    reflexivity.
Qed.

Lemma set_writeStream_chain fuel w l cs value :
  chain (loggers w) l cs -> (length cs <= fuel)%nat ->
  set_writeStream fuel l value w
  = Ok tt (with_loggers (assign_all value (reached (loggers w) cs)) w).
Proof.
  intros Hc Hf. unfold reached.
  destruct (first_stream (loggers w) (tail cs)) as [s|] eqn:Hfs.
  - inversion Hc as [l' o Hl Hp | l' o p cs' Hl Hp Hc']; subst;
      [simpl in Hfs; discriminate |].
    destruct fuel as [|f]; simpl in Hf; try lia.
    simpl; run; rewrite Hl; simpl; rewrite Hp.
    pose proof (chain_NoDup _ _ _ Hc) as Hnd.
    apply NoDup_cons in Hnd as [Hnotin _].
    set (w1 := with_loggers (alter (set_own_stream value) l) w).
    assert (Hc1 : chain (loggers w1) p cs')
      by (apply chain_alter; [apply set_own_stream_parent | assumption]).
    rewrite (get_writeStream_chain f w1 p cs' Hc1) by lia.
    simpl in Hfs |- *. rewrite first_stream_alter by assumption.
    rewrite Hfs. reflexivity.
  - apply set_writeStream_all; assumption.
Qed.

Lemma chain_assign_all value ls h l cs :
  chain h l cs -> chain (assign_all value ls h) l cs.
Proof.
  revert h; induction ls as [|a rest IH]; intros h Hc; simpl; [assumption |].
  apply IH, chain_alter; [apply set_own_stream_parent | assumption].
Qed.

Lemma chain_tail h l o p cs :
  chain h l cs -> h !! l = Some o -> parent o = Some p -> chain h p (tail cs).
Proof.
  intros Hc Hl Hp.
  inversion Hc as [l' o' Hl' Hp' | l' o' p' cs' Hl' Hp' Hc']; subst; simpl.
  - congruence.
  - assert (p' = p) by congruence; subst; assumption.
Qed.

Lemma chain_from h l cs a :
  chain h l cs -> a ∈ cs ->
  chain h a (dropwhile_to a cs) /\ exists pre, cs = pre ++ dropwhile_to a cs.
Proof.
  induction 1 as [l o Hl Hp | l o p cs Hl Hp Hc IH]; intros Ha; simpl.
  - apply list_elem_of_singleton in Ha; subst.
    rewrite decide_True by reflexivity.
    split; [econstructor; eauto | exists []; reflexivity].
  - destruct (decide (l = a)) as [-> | Hne].
    + split; [econstructor; eauto | exists []; reflexivity].
    + apply elem_of_cons in Ha as [-> | Ha]; [congruence |].
      destruct (IH Ha) as [Hs [pre Hpre]].
      split; [assumption |]. exists (l :: pre). simpl. congruence.
Qed.

Lemma first_stream_app h pre suf s :
  first_stream h suf = Some s -> exists other, first_stream h (pre ++ suf) = Some other.
Proof.
  intros Hs. induction pre as [|b pre IH]; simpl; [eauto |].
  destruct (h !! b) as [ob|]; [destruct (_writeStream ob); eauto | assumption].
Qed.

(** C8: the write-stream getter returns the logger's own stream when it has
    one and otherwise what the parent's getter returns; assigning a stream to
    a child while neither it nor its parent resolves to a stream stores the
    very same stream in the parent as well; and an ancestor that already has
    a stream, its own or one it resolves to further up, is left as it is
    when a descendant is assigned one, and goes on resolving to that stream. *)
Theorem writeStream_sharing (fuel : nat) (w : World) (c : loc) (oc : Logger)
    (cs : list loc) (s : sid) :
  chain (loggers w) c cs -> (length cs <= fuel)%nat ->
  loggers w !! c = Some oc ->
  (exists r, get_writeStream fuel c w = Ok r w /\
     match _writeStream oc, parent oc with
     | Some own, _ => r = Some own
     | None, Some p => get_writeStream fuel p w = Ok r w
     | None, None => r = None
     end) /\
  exists w', set_writeStream fuel c (Some s) w = Ok tt w' /\
    get_writeStream fuel c w' = Ok (Some s) w' /\
    (forall p, parent oc = Some p ->
       get_writeStream fuel c w = Ok None w ->
       (exists op, loggers w' !! p = Some op /\ _writeStream op = Some s) /\
       get_writeStream fuel p w' = Ok (Some s) w') /\
    (forall a oa held, a ∈ tail cs -> loggers w !! a = Some oa ->
       _writeStream oa = Some held -> loggers w' !! a = Some oa) /\
    (forall a oa held, a ∈ tail cs -> loggers w !! a = Some oa ->
       get_writeStream fuel a w = Ok (Some held) w ->
       loggers w' !! a = Some oa /\
       get_writeStream fuel a w' = Ok (Some held) w').
Proof.
  intros Hc Hf Hoc.
  pose proof (chain_NoDup _ _ _ Hc) as Hnd.
  assert (Hcs : exists rest, cs = c :: rest)
    by (inversion Hc; subst; eauto).
  destruct Hcs as [rest ->]. simpl in Hf.
  split.
  - exists (first_stream (loggers w) (c :: rest)).
    split; [apply get_writeStream_chain; simpl; [assumption | lia] |].
    simpl. rewrite Hoc.
    destruct (_writeStream oc) as [own|]; [reflexivity |].
    destruct (parent oc) as [p|] eqn:Hp.
    + apply get_writeStream_chain; [| simpl; lia].
      apply (chain_tail _ _ _ _ _ Hc Hoc Hp).
    + inversion Hc; subst; [reflexivity | congruence].
  - eexists; split;
      [apply (set_writeStream_chain fuel w c (c :: rest)); simpl; [assumption | lia] |].
    set (h' := assign_all (Some s) (reached (loggers w) (c :: rest)) (loggers w)).
    assert (Hc' : chain h' c (c :: rest)) by (apply chain_assign_all; assumption).
    assert (Hcin : c ∈ reached (loggers w) (c :: rest)).
    { unfold reached; destruct (first_stream _ _); simpl; left. }
    assert (Hown : exists o', h' !! c = Some o' /\ _writeStream o' = Some s).
    { exists (set_own_stream (Some s) oc); split; [| reflexivity].
      unfold h'. rewrite assign_all_lookup, bool_decide_eq_true_2, Hoc by assumption.
      reflexivity. }
    split; [| split; [| split]].
    + rewrite (get_writeStream_chain fuel _ c (c :: rest)); simpl; try assumption; try lia.
      fold h'. destruct Hown as (o' & -> & ->). reflexivity.
    + intros p Hp Hnone.
      assert (Hfirst : first_stream (loggers w) (c :: rest) = None).
      { pose proof (get_writeStream_chain fuel w c (c :: rest) Hc) as Hg.
        rewrite Hg in Hnone by (simpl; lia). congruence. }
      clear Hnone; rename Hfirst into Hnone.
      assert (Hreach : reached (loggers w) (c :: rest) = c :: rest).
      { unfold reached. rewrite (first_stream_tail_None _ _ Hnone). reflexivity. }
      pose proof (chain_tail _ _ _ _ _ Hc Hoc Hp) as Hcp; simpl in Hcp.
      assert (Hpin : p ∈ c :: rest).
      { right. inversion Hcp; subst; left. }
      destruct (chain_lookup _ _ _ _ Hc Hpin) as [op Hop].
      assert (Hop' : h' !! p = Some (set_own_stream (Some s) op)).
      { unfold h'. rewrite assign_all_lookup, Hreach, bool_decide_eq_true_2, Hop
          by assumption. reflexivity. }
      split; [eexists; split; [exact Hop' | reflexivity] |].
      rewrite (get_writeStream_chain fuel _ p rest); simpl; try lia.
      * fold h'. inversion Hcp; subst; simpl; rewrite Hop'; reflexivity.
      * apply chain_assign_all; assumption.
    + intros a oa held Ha Hoa Hheld. simpl in Ha.
      simpl. rewrite assign_all_lookup.
      case_bool_decide as Hin; [| assumption].
      exfalso. unfold reached in Hin. simpl in Hin.
      destruct (first_stream (loggers w) rest) eqn:Hfs.
      * apply list_elem_of_singleton in Hin; subst a.
        apply NoDup_cons in Hnd as [Hnotin _]; tauto.
      * pose proof (first_stream_None _ _ _ _ Hfs Ha Hoa); congruence.
    + intros a oa held Ha Hoa Hheld. simpl in Ha.
      assert (Hcr : chain (loggers w) a (dropwhile_to a rest) /\
                    exists pre, rest = pre ++ dropwhile_to a rest).
      { inversion Hc as [? ? ? ? | ? o p cs' Hl Hp Hcp];
          subst; [inversion Ha |].
        apply (chain_from _ _ _ _ Hcp Ha). }
      destruct Hcr as [Hca [pre Hpre]].
      set (suf := dropwhile_to a rest) in *.
      assert (Hlen : (length suf <= fuel)%nat).
      { apply (f_equal length) in Hpre. rewrite length_app in Hpre. lia. }
      rewrite (get_writeStream_chain fuel w a suf Hca Hlen) in Hheld.
      assert (Hsuf : first_stream (loggers w) suf = Some held) by congruence.
      assert (Hrest : exists other, first_stream (loggers w) rest = Some other).
      { rewrite Hpre. apply (first_stream_app _ _ _ held), Hsuf. }
      destruct Hrest as [other Hrest].
      apply NoDup_cons in Hnd as [Hnotin _].
      assert (Hac : a <> c) by (intros ->; tauto).
      assert (Hcsuf : c ∉ suf).
      { intros Hin. apply Hnotin. rewrite Hpre. apply elem_of_app. right. exact Hin. }
      unfold h' in *. unfold reached in *. simpl in *. rewrite Hrest in *. simpl.
      split.
      * rewrite lookup_alter, decide_False by congruence. assumption.
      * rewrite (get_writeStream_chain fuel _ a suf); simpl;
          [| apply chain_alter; [apply set_own_stream_parent | assumption] | assumption].
        rewrite first_stream_alter by assumption. congruence.
Qed.

(** ** Streams that are open *)

Lemma isWriteStreamClosed_resolved fuel w l s ws :
  get_writeStream fuel l w = Ok (Some s) w -> streams w !! s = Some ws ->
  isWriteStreamClosed fuel l w = Ok (closed ws || destroyed ws) w.
Proof.
  intros Hg Hs. unfold isWriteStreamClosed. run. rewrite Hg, Hs. reflexivity.
Qed.

Lemma isWriteStreamClosed_none fuel w l :
  get_writeStream fuel l w = Ok None w -> isWriteStreamClosed fuel l w = Ok true w.
Proof.
  intros Hg. unfold isWriteStreamClosed. run. rewrite Hg. reflexivity.
Qed.

(** Inversion of a sequence that returned. *)
Lemma bind_Ok {A B} (m : M A) (k : A -> M B) w b w' :
  bind m k w = Ok b w' -> exists a w1, m w = Ok a w1 /\ k a w1 = Ok b w'.
Proof.
  unfold bind. destruct (m w) as [a w1| | |]; try discriminate. eauto.
Qed.

Lemma when_Ok b (m : M unit) w w' :
  when b m w = Ok tt w' -> (b = true /\ m w = Ok tt w') \/ (b = false /\ w' = w).
Proof.
  destruct b; simpl; [left; auto | intros [= <-]; right; auto].
Qed.

Lemma get_writeStream_pure fuel l w r w' :
  get_writeStream fuel l w = Ok r w' -> w' = w.
Proof.
  revert l; induction fuel as [|f IH]; intros l; simpl; [discriminate |].
  run. destruct (loggers w !! l) as [o|]; [| discriminate].
  destruct (_writeStream o); [congruence |].
  destruct (parent o); [apply IH | congruence].
Qed.

(** An assignment that returns has stored the value in the logger itself,
    and touches nothing but own streams of loggers. *)
Lemma set_writeStream_keeps fuel a value w w' :
  set_writeStream fuel a value w = Ok tt w' ->
  streams w' = streams w /\
  forall l o, loggers w !! l = Some o -> _writeStream o = value ->
    exists o', loggers w' !! l = Some o' /\ _writeStream o' = value.
Proof.
  revert a w; induction fuel as [|f IH]; intros a w; simpl; [discriminate |].
  run. destruct (loggers w !! a) as [oa|] eqn:Ha; [| discriminate].
  set (w1 := with_loggers (alter (set_own_stream value) a) w).
  assert (Hkeep1 : forall l o, loggers w !! l = Some o -> _writeStream o = value ->
            exists o', loggers w1 !! l = Some o' /\ _writeStream o' = value).
  { intros l o Hl Ho. simpl. rewrite lookup_alter.
    destruct (decide (l = a)) as [-> | Hne].
    - rewrite decide_True, Ha by reflexivity. eexists; split; reflexivity.
    - rewrite decide_False by congruence. eauto. }
  destruct (parent oa) as [p|].
  - destruct (get_writeStream f p w1) as [r w2| | |] eqn:Hg; try discriminate.
    apply get_writeStream_pure in Hg as ->.
    destruct r.
    + intros [= <-]. split; [reflexivity | exact Hkeep1].
    + intros Hset. destruct (IH _ _ Hset) as [Hst Hk].
      split; [rewrite Hst; reflexivity |].
      intros l o Hl Ho. destruct (Hkeep1 l o Hl Ho) as (o1 & Hl1 & Ho1). eauto.
  - intros [= <-]. split; [reflexivity | exact Hkeep1].
Qed.

Lemma set_writeStream_own fuel l value w w' :
  set_writeStream fuel l value w = Ok tt w' ->
  exists o', loggers w' !! l = Some o' /\ _writeStream o' = value.
Proof.
  destruct fuel as [|f]; simpl; [discriminate |].
  run. destruct (loggers w !! l) as [o|] eqn:Hl; [| discriminate].
  set (w1 := with_loggers (alter (set_own_stream value) l) w).
  assert (H1 : exists o1, loggers w1 !! l = Some o1 /\ _writeStream o1 = value).
  { simpl. rewrite lookup_alter, decide_True, Hl by reflexivity.
    eexists; split; reflexivity. }
  destruct H1 as (o1 & Hl1 & Ho1).
  destruct (parent o) as [p|].
  - destruct (get_writeStream f p w1) as [r w2| | |] eqn:Hg; try discriminate.
    apply get_writeStream_pure in Hg as ->.
    destruct r.
    + intros [= <-]. eauto.
    + intros Hset. apply set_writeStream_keeps in Hset as [_ Hk]. eauto.
  - intros [= <-]. eauto.
Qed.

Lemma readFile_pure file w c w' : readFile file w = Ok c w' -> w' = w.
Proof.
  unfold readFile. run. destruct (files w !! file) as [[]|]; congruence.
Qed.

Lemma createWriteStream_Ok file append w s w' :
  createWriteStream file append w = Ok s w' ->
  loggers w' = loggers w /\
  streams w' !! s = Some {| ws_path := file; closed := false; destroyed := false;
                            written := [] |}.
Proof.
  unfold createWriteStream. run.
  destruct (files w !! file) as [[c b ch|]|]; try discriminate;
    intros [= <- <-]; simpl; rewrite lookup_insert_eq; auto.
Qed.

Lemma WriteStream_write_Ok s data w w' ws :
  streams w !! s = Some ws -> is_open ws ->
  WriteStream_write s data w = Ok tt w' ->
  loggers w' = loggers w /\
  streams w' = <[s := {| ws_path := ws_path ws; closed := false; destroyed := false;
                         written := written ws ++ [data] |}]> (streams w).
Proof.
  intros Hs [Hc Hd]. unfold WriteStream_write. run. rewrite Hs, Hc, Hd. simpl.
  destruct (files w !! ws_path ws) as [[c b ch|]|]; intros [= <-]; auto.
Qed.

(** The static factory hands back a stream that is open. *)
Lemma Logger_createFileWriteStream_open host options w s w' :
  Logger_createFileWriteStream host options w = Ok s w' ->
  exists ws, streams w' !! s = Some ws /\ is_open ws.
Proof.
  unfold Logger_createFileWriteStream. intros H.
  do 7 (apply bind_Ok in H as (? & ? & _ & H)).
  apply bind_Ok in H as (s0 & w1 & Hcreate & H).
  apply bind_Ok in H as (content & w2 & Hread & H).
  apply bind_Ok in H as ([] & w3 & Hwhen & H).
  injection H as <- <-.
  apply readFile_pure in Hread as ->.
  apply createWriteStream_Ok in Hcreate as [_ Hs].
  apply when_Ok in Hwhen as [[_ Hw] | [_ ->]].
  - eapply WriteStream_write_Ok in Hw as [_ ->]; [| exact Hs | split; reflexivity].
    rewrite lookup_insert_eq. eexists; split; [reflexivity | split; reflexivity].
  - eexists; split; [exact Hs | split; reflexivity].
Qed.

(** Once [createFileWriteStream] has returned, the logger resolves to an open
    stream of its own. *)
Lemma createFileWriteStream_installs host fuel l options w r w' :
  createFileWriteStream host fuel l options w = Ok r w' ->
  exists s ws, get_writeStream fuel l w' = Ok (Some s) w' /\
               streams w' !! s = Some ws /\ is_open ws.
Proof.
  unfold createFileWriteStream. intros H.
  apply bind_Ok in H as (isClosed & w1 & _ & H).
  destruct (negb isClosed); [discriminate |].
  apply bind_Ok in H as (s & w2 & Hstatic & H).
  apply bind_Ok in H as ([] & w3 & Hset & H).
  injection H as <- <-.
  apply Logger_createFileWriteStream_open in Hstatic as (ws & Hws & Hopen).
  pose proof (set_writeStream_keeps _ _ _ _ _ Hset) as [Hst _].
  apply set_writeStream_own in Hset as Hown.
  destruct Hown as (o' & Hl & Ho).
  exists s, ws. rewrite Hst. split; [| auto].
  destruct fuel as [|f]; [discriminate |].
  simpl. run. rewrite Hl, Ho. reflexivity.
Qed.

(** C9: while the stream the logger resolves to is open,
    [createFileWriteStream] throws and changes nothing; so a second call
    right after one that returned throws. *)
Theorem createFileWriteStream_already_open (host : Host) (fuel : nat) (l : loc)
    (options : WriteStreamOptions) :
  (forall w s ws,
      get_writeStream fuel l w = Ok (Some s) w ->
      streams w !! s = Some ws -> closed ws = false -> destroyed ws = false ->
      createFileWriteStream host fuel l options w = Throw already_created w) /\
  (forall first w r w1,
      createFileWriteStream host fuel l first w = Ok r w1 ->
      createFileWriteStream host fuel l options w1 = Throw already_created w1).
Proof.
  assert (Hopen : forall w s ws,
      get_writeStream fuel l w = Ok (Some s) w ->
      streams w !! s = Some ws -> closed ws = false -> destroyed ws = false ->
      createFileWriteStream host fuel l options w = Throw already_created w).
  { intros w s ws Hg Hs Hc Hd. unfold createFileWriteStream. run.
    rewrite (isWriteStreamClosed_resolved _ _ _ _ _ Hg Hs), Hc, Hd. reflexivity. }
  split; [exact Hopen |].
  intros first w r w1 Hfirst.
  apply createFileWriteStream_installs in Hfirst as (s & ws & Hg & Hs & Hc & Hd).
  eapply Hopen; eassumption.
Qed.

Lemma first_stream_skip h pre a oa post s :
  (forall b ob, b ∈ pre -> h !! b = Some ob -> _writeStream ob = None) ->
  h !! a = Some oa -> _writeStream oa = Some s ->
  first_stream h (pre ++ a :: post) = Some s.
Proof.
  intros Hpre Ha Hs. induction pre as [|b pre IH]; simpl.
  - rewrite Ha, Hs. reflexivity.
  - destruct (h !! b) as [ob|] eqn:Hb.
    + rewrite (Hpre b ob) by (left || assumption).
      apply IH. intros b' ob' Hin; apply Hpre; right; assumption.
    + apply IH. intros b' ob' Hin; apply Hpre; right; assumption.
Qed.

(** C10, amended: a descendant without a stream of its own cannot create one
    while the nearest ancestor that has a stream holds an open one. *)
Theorem createFileWriteStream_ancestor_open (host : Host) (fuel : nat) (w : World)
    (d : loc) (od : Logger) (between : list loc) (a : loc) (oa : Logger)
    (above : list loc) (s : sid) (ws : WriteStream) (options : WriteStreamOptions) :
  chain (loggers w) d (d :: between ++ a :: above) ->
  (length (d :: between ++ a :: above) <= fuel)%nat ->
  loggers w !! d = Some od -> _writeStream od = None ->
  (forall b ob, b ∈ between -> loggers w !! b = Some ob -> _writeStream ob = None) ->
  loggers w !! a = Some oa -> _writeStream oa = Some s ->
  streams w !! s = Some ws -> closed ws = false -> destroyed ws = false ->
  createFileWriteStream host fuel d options w = Throw already_created w.
Proof.
  intros Hc Hf Hd Hod Hbetween Ha Hoa Hs Hclosed Hdestroyed.
  pose proof (get_writeStream_chain fuel w d _ Hc Hf) as Hg.
  simpl in Hg. rewrite Hd, Hod in Hg.
  rewrite (first_stream_skip _ _ _ _ _ _ Hbetween Ha Hoa) in Hg.
  unfold createFileWriteStream. run.
  rewrite (isWriteStreamClosed_resolved _ _ _ _ _ Hg Hs), Hclosed, Hdestroyed.
  reflexivity.
Qed.

Lemma closeFileWriteStream_closes fuel l w s ws :
  get_writeStream fuel l w = Ok (Some s) w -> streams w !! s = Some ws ->
  closed ws || destroyed ws = true ->
  closeFileWriteStream fuel l w
  = Ok l (with_streams (alter (fun ws => {| ws_path := ws_path ws; closed := true;
                                            destroyed := true;
                                            written := written ws |}) s) w).
Proof.
  intros Hg Hs Hc. unfold closeFileWriteStream. run.
  rewrite (isWriteStreamClosed_resolved _ _ _ _ _ Hg Hs), Hc. simpl.
  rewrite Hg. reflexivity.
Qed.

(** C2, as the code has it: with an open stream [closeFileWriteStream]
    resolves at once and leaves the stream open, and without any stream its
    promise never settles. *)
Theorem closeFileWriteStream_inverted (fuel : nat) (l : loc) :
  (forall w s ws,
      get_writeStream fuel l w = Ok (Some s) w ->
      streams w !! s = Some ws -> closed ws = false -> destroyed ws = false ->
      closeFileWriteStream fuel l w = Ok l w) /\
  (forall w,
      get_writeStream fuel l w = Ok None w ->
      closeFileWriteStream fuel l w = Pending w).
Proof.
  split.
  - intros w s ws Hg Hs Hc Hd. unfold closeFileWriteStream. run.
    rewrite (isWriteStreamClosed_resolved _ _ _ _ _ Hg Hs), Hc, Hd. reflexivity.
  - intros w Hg. unfold closeFileWriteStream. run.
    rewrite (isWriteStreamClosed_none _ _ _ Hg). simpl. rewrite Hg. reflexivity.
Qed.

(** ** Events *)

Lemma emit_chain fuel w l cs event data :
  chain (loggers w) l cs -> (length cs <= fuel)%nat ->
  exists result,
    emit fuel l event data w
    = Ok result (with_calls (fun done => done
                   ++ flat_map (dispatch_at (loggers w) event data) cs) w).
Proof.
  revert fuel w l.
  induction cs as [|c cs IH]; intros [|f] w l Hc Hf;
    inversion Hc as [l' o Hl Hp | l' o p cs' Hl Hp Hc']; subst;
    simpl in Hf; try lia; simpl; run; rewrite Hl; simpl; rewrite Hp.
  - eexists. unfold with_calls, dispatch_at. rewrite Hl, app_nil_r. reflexivity.
  - set (w1 := with_calls (fun done => done ++ dispatch c o event data) w).
    destruct (IH f w1 p Hc' ltac:(lia)) as [r Hr]. rewrite Hr.
    eexists. unfold with_calls, dispatch_at at 2. simpl. rewrite Hl, app_assoc.
    reflexivity.
Qed.

(** ** [print] *)

Lemma WriteStream_write_spec s ws data w :
  streams w !! s = Some ws -> closed ws || destroyed ws = false ->
  WriteStream_write s data w = Ok tt (write_effect s ws data w).
Proof.
  intros Hs Hopen. unfold WriteStream_write, write_effect. run.
  rewrite Hs, Hopen. simpl.
  destruct (files w !! ws_path ws) as [[c b ch|]|]; reflexivity.
Qed.

Section PrintSpec.

Variable host : Host.
Variables (fuel : nat) (w : World) (l : loc) (o : Logger) (cs : list loc).
Variables (level : LogLevel) (data : list JSValue).

Hypothesis Hchain : chain (loggers w) l cs.
Hypothesis Hfuel : (length cs <= fuel)%nat.
Hypothesis Hlogger : loggers w !! l = Some o.
Hypothesis Hstreams :
  forall s, first_stream (loggers w) cs = Some s -> is_Some (streams w !! s).

Lemma print_file_step w2 :
  loggers w2 = loggers w -> streams w2 = streams w ->
  (isClosed <- isWriteStreamClosed fuel l ;;
   when (negb isClosed
         && match writeLevel o with
            | Some threshold => level_ge level threshold
            | None => false
            end)
        (ws <- get_writeStream fuel l ;;
         match ws with
         | Some s =>
             WriteStream_write s (ev_simple (print_event host w l o level data) ++ [10])
         | None => ret tt
         end)) w2
  = Ok tt (file_step host w l o cs level data w2).
Proof.
  intros Hl Hs.
  assert (Hget : get_writeStream fuel l w2 = Ok (first_stream (loggers w) cs) w2).
  { rewrite <- Hl. apply get_writeStream_chain; [| assumption].
    rewrite Hl; assumption. }
  unfold isWriteStreamClosed, file_step. run. rewrite Hget.
  destruct (first_stream (loggers w) cs) as [s|] eqn:Hfirst; [| reflexivity].
  destruct (Hstreams s eq_refl) as [ws Hws].
  rewrite Hs, Hws.
  fold (threshold_met (writeLevel o) level).
  destruct (closed ws || destroyed ws) eqn:Hopen; simpl; [reflexivity |].
  destruct (threshold_met (writeLevel o) level); [| reflexivity].
  rewrite Hget. apply WriteStream_write_spec; [| assumption].
  rewrite Hs; assumption.
Qed.

Lemma print_spec :
  print host fuel l level data w = Ok tt (after_print host w l o cs level data).
Proof.
  unfold print. run. rewrite Hlogger.
  destruct (emit_chain fuel w l cs level (print_event host w l o level data)
              Hchain Hfuel) as [r Hr].
  unfold print_event in Hr. rewrite Hr. simpl. rewrite Hlogger.
  unfold after_print, after_console, threshold_met.
  destruct (logLevel o) as [t|]; [destruct (level_ge level t) |];
    apply print_file_step; reflexivity.
Qed.

End PrintSpec.

(** ** Text and bytes *)

Lemma split_on_nonempty sep s : split_on sep s <> [].
Proof.
  destruct s as [|c rest]; simpl; [discriminate |].
  destruct (c =? sep); [discriminate |].
  destruct (split_on sep rest); discriminate.
Qed.

Lemma join_split sep s : join_with sep (split_on sep s) = s.
Proof.
  induction s as [|c rest IH]; simpl; [reflexivity |].
  destruct (c =? sep) eqn:Hc.
  - apply Z.eqb_eq in Hc as ->.
    pose proof (split_on_nonempty sep rest) as Hne.
    destruct (split_on sep rest) as [|p ps]; [congruence |].
    simpl in *. rewrite IH. reflexivity.
  - pose proof (split_on_nonempty sep rest) as Hne.
    destruct (split_on sep rest) as [|p ps]; [congruence |].
    destruct ps; simpl in *; rewrite <- IH; reflexivity.
Qed.



(** What becomes of gzip's two magic bytes when the data goes through a
    string: the second is no UTF-8 and comes back as U+FFFD. *)
Lemma utf8_magic_mangled rest :
  exists rest', utf8_encode (utf8_decode (31 :: 139 :: rest)) = 31 :: 239 :: 191 :: 189 :: rest'.
Proof.
  exists (utf8_encode (utf8_decode rest)). reflexivity.
Qed.

Lemma utf8_magic_lost rest :
  utf8_encode (utf8_decode (31 :: 139 :: rest)) <> 31 :: 139 :: rest.
Proof.
  destruct (utf8_magic_mangled rest) as [rest' ->]. discriminate.
Qed.

(** ** The file system, step by step *)



Lemma readFile_file file w c b ch :
  files w !! file = Some (FsFile c b ch) -> readFile file w = Ok (utf8_decode c) w.
Proof. intros H. unfold readFile. run. rewrite H. reflexivity. Qed.

Lemma writeFile_file file data w c b ch :
  files w !! file = Some (FsFile c b ch) ->
  writeFile file data w
  = Ok tt (with_files (insert file (FsFile (utf8_encode data) b (now w))) w).
Proof. intros H. unfold writeFile. run. rewrite H. reflexivity. Qed.


Lemma rename_file oldPath newPath w node :
  files w !! oldPath = Some node -> files w !! newPath <> Some FsDir ->
  rename oldPath newPath w
  = Ok tt (with_files (fun fs => <[newPath := node]> (delete oldPath fs)) w).
Proof.
  intros H Hn. unfold rename. run. rewrite H.
  destruct (files w !! newPath) as [[]|]; try reflexivity. congruence.
Qed.


(** ** [Utils.gzipCompressLog] *)

Lemma getFileCreationDate_given host file st lines w :
  lines <> [] ->
  getFileCreationDate host file (Some st) (Some lines) w
  = Ok (header_date host st lines) w.
Proof.
  intros Hne. unfold getFileCreationDate, header_date. run.
  destruct lines as [|first rest]; [congruence |]. simpl.
  destruct (negb (jsstring_eqb (trim first) []) && startsWith (trim first) 91
            && endsWith (trim first) 93); reflexivity.
Qed.

Lemma formatDateFileName_valid host t w :
  formatDateFileName host (Some t) w = Ok (date_file_name host t) w.
Proof. reflexivity. Qed.

Lemma gzipCompressLog_spec host file st w content b ch t data :
  files w !! file = Some (FsFile content b ch) ->
  header_date host st (split_on 10 (utf8_decode content)) = Some t ->
  gzip host (utf8_encode (utf8_decode content)) = inl data ->
  files w !! rotated_path host file t <> Some FsDir ->
  gzipCompressLog host file st w
  = Ok tt (with_files
             (fun fs => <[rotated_path host file t :=
                            FsFile (utf8_encode (utf8_decode data)) b (now w)]>
                          (delete file fs)) w).
Proof.
  intros Hfile Hdate Hgzip Hdest. unfold gzipCompressLog.
  cbv [bind]. rewrite (readFile_file _ _ _ _ _ Hfile).
  rewrite getFileCreationDate_given by apply split_on_nonempty.
  rewrite Hdate, formatDateFileName_valid, join_split, Hgzip.
  cbv [ret]. rewrite (writeFile_file _ _ _ _ _ _ Hfile).
  fold (rotated_path host file t).
  erewrite rename_file.
  - unfold with_files. simpl. rewrite delete_insert_eq. reflexivity.
  - simpl. apply lookup_insert_eq.
  - simpl. destruct (decide (file = rotated_path host file t)) as [<- | Hne].
    + rewrite lookup_insert_eq. discriminate.
    + rewrite lookup_insert_ne by assumption. assumption.
Qed.

(** C4, as the code has it: the rotated file does not hold gzip's output but
    that output decoded as UTF-8 and encoded again, which loses the second
    magic byte of every gzip member. *)
Theorem gzipCompressLog_mangles (host : Host) (file : jsstring) (st : Stats)
    (w : World) (content : list Z) (b ch t : Z) (data : list Z) :
  files w !! file = Some (FsFile content b ch) ->
  header_date host st (split_on 10 (utf8_decode content)) = Some t ->
  gzip host (utf8_encode (utf8_decode content)) = inl data ->
  files w !! rotated_path host file t <> Some FsDir ->
  exists w',
    gzipCompressLog host file st w = Ok tt w' /\
    files w' !! rotated_path host file t
      = Some (FsFile (utf8_encode (utf8_decode data)) b (now w)) /\
    (forall rest, data = 31 :: 139 :: rest -> utf8_encode (utf8_decode data) <> data).
Proof.
  intros Hfile Hdate Hgzip Hdest.
  eexists; split; [apply (gzipCompressLog_spec _ _ _ _ _ _ _ _ _ Hfile Hdate Hgzip Hdest) |].
  split.
  - simpl. apply lookup_insert_eq.
  - intros rest ->. apply utf8_magic_lost.
Qed.





(** ** The constructor and [clone] *)

Lemma chain_insert_fresh h l obj p cs :
  h !! l = None -> chain h p cs -> chain (<[l := obj]> h) p cs.
Proof.
  intros Hfresh; induction 1 as [a o Ha Hp | a o q cs Ha Hp Hc IH].
  - apply (chain_root _ _ o); [| assumption].
    rewrite lookup_insert_ne by congruence; assumption.
  - apply (chain_step _ _ o q); [| assumption | assumption].
    rewrite lookup_insert_ne by congruence; assumption.
Qed.

Lemma Logger_new_spec fuel options w cs :
  ancestry (loggers w) (stored (opt_parent options)) cs ->
  (S (length cs) <= fuel)%nat ->
  exists w',
    Logger_new fuel options w = Ok (fresh (dom (loggers w))) w' /\
    loggers w !! fresh (dom (loggers w)) = None /\
    loggers w' !! fresh (dom (loggers w))
      = Some (constructed (fresh (dom (loggers w))) options) /\
    streams w' = streams w.
Proof.
  intros Hanc Hf.
  set (l := fresh (dom (loggers w))).
  assert (Hfresh : loggers w !! l = None)
    by (apply not_elem_of_dom, is_fresh).
  unfold Logger_new. cbv [bind get modify ret]. fold l.
  match goal with |- context [with_loggers (insert l ?O) w] => set (obj := O) end.
  set (w1 := with_loggers (insert l obj) w).
  assert (Hc : chain (loggers w1) l (l :: cs)).
  { simpl. destruct (stored (opt_parent options)) as [p|] eqn:Hp; simpl in Hanc.
    - apply (chain_step _ _ obj p); [apply lookup_insert_eq | reflexivity |].
      apply chain_insert_fresh; assumption.
    - subst cs. apply (chain_root _ _ obj); [apply lookup_insert_eq | reflexivity]. }
  rewrite (set_writeStream_chain fuel w1 l (l :: cs)) by (assumption || (simpl; lia)).
  eexists; split; [reflexivity |]. split; [assumption |]. split; [| reflexivity].
  simpl. rewrite assign_all_lookup.
  rewrite bool_decide_eq_true_2
    by (unfold reached; destruct (first_stream _ _); simpl; left).
  rewrite lookup_insert_eq. simpl. f_equal.
  unfold constructed, set_own_stream, obj. simpl.
  destruct (opt_writeLevel options) as [| | |[]]; reflexivity.
Qed.

(** C1, as the code has it: without [writeLevel], and with a level given for
    it, the logger's write threshold is its console threshold; with [null]
    it is [null].  A level given for [writeLevel] is not used. *)
Theorem Logger_new_writeLevel (fuel : nat) (options : Options) (w : World)
    (cs : list loc) :
  ancestry (loggers w) (stored (opt_parent options)) cs ->
  (S (length cs) <= fuel)%nat ->
  exists l w' o,
    Logger_new fuel options w = Ok l w' /\
    loggers w' !! l = Some o /\
    logLevel o = Some (nullish_or (opt_logLevel options) Info) /\
    match opt_writeLevel options with
    | Absent | Undefined => writeLevel o = logLevel o
    | Null => writeLevel o = None
    | Value given => writeLevel o = logLevel o
    end.
Proof.
  intros Hanc Hf.
  destruct (Logger_new_spec fuel options w cs Hanc Hf) as (w' & Hnew & _ & Hl & _).
  do 3 eexists. split; [exact Hnew |]. split; [exact Hl |].
  split; [reflexivity |].
  simpl. destruct (opt_writeLevel options); reflexivity.
Qed.

Lemma toJSON_chain fuel w l o cs :
  chain (loggers w) l cs -> (length cs <= fuel)%nat -> loggers w !! l = Some o ->
  toJSON fuel l w = Ok (json_of o (first_stream (loggers w) cs)) w.
Proof.
  intros Hc Hf Hl. unfold toJSON. run. rewrite Hl.
  rewrite (get_writeStream_chain fuel w l cs Hc Hf). reflexivity.
Qed.

Lemma clone_spec fuel w l o cs options inheritParent :
  chain (loggers w) l cs -> (S (length cs) <= fuel)%nat ->
  loggers w !! l = Some o -> opt_parent options = Absent ->
  exists w',
    clone fuel l options inheritParent w = Ok (fresh (dom (loggers w))) w' /\
    loggers w !! fresh (dom (loggers w)) = None /\
    loggers w' !! fresh (dom (loggers w))
      = Some (constructed (fresh (dom (loggers w)))
                (clone_options l o (first_stream (loggers w) cs) options inheritParent)).
Proof.
  intros Hc Hf Hl Hparent. unfold clone. cbv [bind].
  rewrite (toJSON_chain fuel w l o cs Hc) by (assumption || lia).
  unfold this_logger. cbv [bind get ret]. rewrite Hl.
  fold (clone_options l o (first_stream (loggers w) cs) options inheritParent).
  set (merged := clone_options l o (first_stream (loggers w) cs) options inheritParent).
  assert (Hstored : stored (opt_parent merged)
                    = if inheritParent then parent o else Some l).
  { unfold merged, clone_options. simpl. rewrite Hparent. simpl.
    destruct inheritParent; [destruct (parent o) |]; reflexivity. }
  destruct (Logger_new_spec fuel merged w
              (if inheritParent then tail cs else cs)) as (w' & Hnew & Hfresh & Hlook & _).
  - rewrite Hstored. destruct inheritParent; simpl; [| assumption].
    destruct (parent o) as [p|] eqn:Hp; simpl.
    + apply (chain_tail _ _ _ _ _ Hc Hl Hp).
    + inversion Hc; subst; [reflexivity | congruence].
  - destruct inheritParent; [| assumption].
    destruct cs; simpl in *; lia.
  - eauto.
Qed.

(** C7, as the code has it: the clone's parent is the original's parent, or
    the original when [inheritParent] is false; its console threshold is the
    original's unless overridden; but its write threshold, when the options
    leave it alone and the original has one, is the clone's own console
    threshold and not the original's write threshold. *)
Theorem clone_thresholds (fuel : nat) (w : World) (l : loc) (o : Logger)
    (cs : list loc) (options : Options) (inheritParent : bool) :
  chain (loggers w) l cs -> (S (length cs) <= fuel)%nat ->
  loggers w !! l = Some o -> opt_parent options = Absent ->
  exists l' w' o',
    clone fuel l options inheritParent w = Ok l' w' /\
    loggers w !! l' = None /\
    loggers w' !! l' = Some o' /\
    parent o' = (if inheritParent then parent o else Some l) /\
    logLevel o'
      = Some (nullish_or (spread_field (of_nullable (logLevel o)) (opt_logLevel options))
                         Info) /\
    (opt_writeLevel options = Absent ->
     writeLevel o' = match writeLevel o with
                     | Some _ => logLevel o'
                     | None => None
                     end).
Proof.
  intros Hc Hf Hl Hparent.
  destruct (clone_spec fuel w l o cs options inheritParent Hc Hf Hl Hparent)
    as (w' & Hclone & Hfresh & Hlook).
  do 3 eexists. split; [exact Hclone |]. split; [exact Hfresh |].
  split; [exact Hlook |]. simpl. rewrite Hparent. simpl.
  split; [destruct inheritParent; [destruct (parent o) |]; reflexivity |].
  split; [reflexivity |].
  intros ->. simpl. destruct (writeLevel o); reflexivity.
Qed.

Lemma threshold_met_true threshold level :
  threshold_met threshold level = true <->
  exists t, threshold = Some t /\ LogLevel_value t <= LogLevel_value level.
Proof.
  unfold threshold_met, level_ge. split.
  - destruct threshold as [t|]; [| discriminate].
    intros H%Z.leb_le. eauto.
  - intros (t & -> & H). apply Z.leb_le. assumption.
Qed.

Lemma write_effect_console s ws data w : console (write_effect s ws data w) = console w.
Proof. unfold write_effect. destruct (files w !! ws_path ws) as [[]|]; reflexivity. Qed.

Lemma write_effect_calls s ws data w : calls (write_effect s ws data w) = calls w.
Proof. unfold write_effect. destruct (files w !! ws_path ws) as [[]|]; reflexivity. Qed.

Lemma write_effect_streams s ws data w :
  streams (write_effect s ws data w)
  = <[s := {| ws_path := ws_path ws; closed := false; destroyed := false;
              written := written ws ++ [data] |}]> (streams w).
Proof. unfold write_effect. destruct (files w !! ws_path ws) as [[]|]; reflexivity. Qed.

Lemma resolved_stream fuel w l cs s :
  chain (loggers w) l cs -> (length cs <= fuel)%nat ->
  get_writeStream fuel l w = Ok (Some s) w <-> first_stream (loggers w) cs = Some s.
Proof.
  intros Hchain Hfuel.
  rewrite (get_writeStream_chain fuel w l cs Hchain Hfuel). split; congruence.
Qed.

Lemma print_returns host fuel w l o cs level data :
  chain (loggers w) l cs -> (length cs <= fuel)%nat ->
  loggers w !! l = Some o ->
  (forall s, get_writeStream fuel l w = Ok (Some s) w -> is_Some (streams w !! s)) ->
  print host fuel l level data w = Ok tt (after_print host w l o cs level data).
Proof.
  intros Hchain Hfuel Hlogger Hstreams.
  apply print_spec; try assumption.
  intros s Hs. apply Hstreams. apply (resolved_stream fuel w l cs s); assumption.
Qed.

Lemma after_print_console host w l o cs level data :
  console (after_print host w l o cs level data)
  = console w ++ (if threshold_met (logLevel o) level
                  then [(level, ev_pretty (print_event host w l o level data))]
                  else []).
Proof.
  assert (Hc : console (after_console host w l o cs level data)
               = console w ++ (if threshold_met (logLevel o) level
                               then [(level, ev_pretty (print_event host w l o level data))]
                               else [])).
  { unfold after_console. destruct (threshold_met (logLevel o) level); simpl;
      [reflexivity | rewrite app_nil_r; reflexivity]. }
  unfold after_print, file_step.
  destruct (first_stream (loggers w) cs) as [s|]; [| exact Hc].
  destruct (streams w !! s) as [ws|]; [| exact Hc].
  destruct (negb (closed ws || destroyed ws) && threshold_met (writeLevel o) level);
    [rewrite write_effect_console |]; exact Hc.
Qed.

(** C5: [print] writes the pretty string to the console exactly when the
    console threshold is not null and the level reaches it, and gives the
    simple string and a newline to the write stream exactly when the logger
    resolves, through its parents, to a stream that is neither closed nor
    destroyed, the write threshold is not null and the level reaches it. *)
Theorem print_thresholds (host : Host) (fuel : nat) (w : World) (l : loc)
    (o : Logger) (cs : list loc) (level : LogLevel) (data : list JSValue) :
  chain (loggers w) l cs -> (length cs <= fuel)%nat ->
  loggers w !! l = Some o ->
  (forall s, get_writeStream fuel l w = Ok (Some s) w -> is_Some (streams w !! s)) ->
  exists w',
    print host fuel l level data w = Ok tt w' /\
    ((exists t, logLevel o = Some t /\ LogLevel_value t <= LogLevel_value level) ->
     console w' = console w ++ [(level, ev_pretty (print_event host w l o level data))]) /\
    (~ (exists t, logLevel o = Some t /\ LogLevel_value t <= LogLevel_value level) ->
     console w' = console w) /\
    (forall s ws t,
        get_writeStream fuel l w = Ok (Some s) w -> streams w !! s = Some ws ->
        closed ws = false -> destroyed ws = false ->
        writeLevel o = Some t -> LogLevel_value t <= LogLevel_value level ->
        streams w' !! s
        = Some {| ws_path := ws_path ws; closed := false; destroyed := false;
                  written := written ws
                             ++ [ev_simple (print_event host w l o level data) ++ [10]] |}) /\
    (~ (exists s ws t,
           get_writeStream fuel l w = Ok (Some s) w /\ streams w !! s = Some ws /\
           closed ws = false /\ destroyed ws = false /\
           writeLevel o = Some t /\ LogLevel_value t <= LogLevel_value level) ->
     streams w' = streams w /\ files w' = files w).
Proof.
  intros Hchain Hfuel Hlogger Hstreams.
  exists (after_print host w l o cs level data).
  split; [apply print_returns; assumption |].
  split; [| split; [| split]].
  - intros Hmet%threshold_met_true. rewrite after_print_console, Hmet. reflexivity.
  - intros Hnot. rewrite after_print_console.
    destruct (threshold_met (logLevel o) level) eqn:Hmet;
      [apply threshold_met_true in Hmet; tauto | apply app_nil_r].
  - intros s ws t Hs Hws Hc Hd Ht Hle.
    apply (resolved_stream fuel w l cs s Hchain Hfuel) in Hs.
    unfold after_print, file_step. rewrite Hs, Hws, Hc, Hd.
    rewrite (proj2 (threshold_met_true (writeLevel o) level)) by eauto.
    simpl. rewrite write_effect_streams. apply lookup_insert_eq.
  - intros Hnot. unfold after_print, file_step.
    assert (Hkeep : streams (after_console host w l o cs level data) = streams w /\
                    files (after_console host w l o cs level data) = files w).
    { unfold after_console. destruct (threshold_met (logLevel o) level); auto. }
    destruct (first_stream (loggers w) cs) as [s|] eqn:Hs; [| exact Hkeep].
    destruct (streams w !! s) as [ws|] eqn:Hws; [| exact Hkeep].
    destruct (closed ws) eqn:Hc; [exact Hkeep |].
    destruct (destroyed ws) eqn:Hd; [exact Hkeep |].
    destruct (threshold_met (writeLevel o) level) eqn:Hmet; [| exact Hkeep].
    exfalso. apply Hnot. apply threshold_met_true in Hmet as (t & Ht & Hle).
    exists s, ws, t.
    rewrite (resolved_stream fuel w l cs s Hchain Hfuel). auto 10.
Qed.

Lemma print_calls host fuel w l o cs level data :
  chain (loggers w) l cs -> (length cs <= fuel)%nat ->
  loggers w !! l = Some o ->
  (forall s, get_writeStream fuel l w = Ok (Some s) w -> is_Some (streams w !! s)) ->
  exists w',
    print host fuel l level data w = Ok tt w' /\
    calls w' = calls w ++ flat_map (dispatch_at (loggers w) level
                                      (print_event host w l o level data)) cs.
Proof.
  intros Hchain Hfuel Hlogger Hstreams.
  exists (after_print host w l o cs level data).
  split; [apply print_returns; assumption |].
  assert (Hc : calls (after_console host w l o cs level data)
               = calls w ++ flat_map (dispatch_at (loggers w) level
                                        (print_event host w l o level data)) cs).
  { unfold after_console. destruct (threshold_met (logLevel o) level); reflexivity. }
  unfold after_print, file_step.
  destruct (first_stream (loggers w) cs) as [s|]; [| exact Hc].
  destruct (streams w !! s) as [ws|]; [| exact Hc].
  destruct (negb (closed ws || destroyed ws) && threshold_met (writeLevel o) level);
    [rewrite write_effect_calls |]; exact Hc.
Qed.

(** C6: one call of [print], or of a level method ([error], [warning],
    [info], [debug] and the aliases [log], [warn], [err], each at its own
    level), invokes the listeners of that level's event at the logger and
    then at each of its ancestors, child first and root last, each logger
    of the chain once. *)
Theorem print_bubbles (host : Host) (fuel : nat) (w : World) (l : loc)
    (o : Logger) (cs : list loc) (level : LogLevel) (data : list JSValue) :
  chain (loggers w) l cs -> (length cs <= fuel)%nat ->
  loggers w !! l = Some o ->
  (forall s, get_writeStream fuel l w = Ok (Some s) w -> is_Some (streams w !! s)) ->
  NoDup cs /\ head cs = Some l /\
  (exists w',
    print host fuel l level data w = Ok tt w' /\
    calls w' = calls w ++ flat_map (dispatch_at (loggers w) level
                                      (print_event host w l o level data)) cs) /\
  bubbles host w l o cs Error data (error host fuel l data) /\
  bubbles host w l o cs Warn data (warning host fuel l data) /\
  bubbles host w l o cs Info data (info host fuel l data) /\
  bubbles host w l o cs Debug data (debug host fuel l data) /\
  bubbles host w l o cs Info data (log host fuel l data) /\
  bubbles host w l o cs Warn data (warn host fuel l data) /\
  bubbles host w l o cs Error data (err host fuel l data).
Proof.
  intros Hchain Hfuel Hlogger Hstreams.
  split; [apply (chain_NoDup _ _ _ Hchain) |].
  split; [inversion Hchain; reflexivity |].
  unfold bubbles, err, warn, log, debug, info, warning, error.
  repeat split; try (apply print_calls; assumption).
Qed.

(** ** The theorems at work on the sample worlds *)

(** The grandchild's chain in every sample family. *)
Lemma family_chain root mid leaf :
  chain (loggers (family root mid leaf)) 2%nat [2; 1; 0]%nat.
Proof.
  eapply chain_step; [reflexivity | reflexivity |].
  eapply chain_step; [reflexivity | reflexivity |].
  eapply chain_root; reflexivity.
Defined.

(** [new Logger({ logLevel: Info, writeLevel: Error })]: the write threshold
    comes out as [Info]. *)
Lemma Logger_new_writeLevel_witness :
  exists l w' o,
    Logger_new 1 both_levels empty_world = Ok l w' /\
    loggers w' !! l = Some o /\
    logLevel o = Some Info /\ writeLevel o = logLevel o.
Proof.
  apply (Logger_new_writeLevel 1 both_levels empty_world []);
    [reflexivity | simpl; lia].
Defined.

(** Closing where the root holds the open stream 1 returns with the stream
    still open; closing in a family without streams never settles. *)
Lemma closeFileWriteStream_inverted_witness :
  closeFileWriteStream 3 2%nat (family (Some 1%nat) None None)
    = Ok 2%nat (family (Some 1%nat) None None) /\
  closeFileWriteStream 3 2%nat (family None None None)
    = Pending (family None None None).
Proof.
  destruct (closeFileWriteStream_inverted 3 2%nat) as [Hopen Hnone].
  split.
  - apply (Hopen _ 1%nat {| ws_path := app_log; closed := false; destroyed := false;
                            written := [] |});
      vm_compute; reflexivity.
  - apply Hnone. vm_compute. reflexivity.
Defined.



(** Rotating the scenario's [latest.log]: what is written differs from what
    gzip returned. *)
Lemma gzipCompressLog_mangles_witness :
  exists w',
    gzipCompressLog utc_host latest_log
      {| isFile := true; birthtimeMs := 1672531200000; ctimeMs := 1672531200000 |}
      scenario_world = Ok tt w' /\
    files w' !! rotated_log
      = Some (FsFile (utf8_encode (utf8_decode
                        (gzip_stored (old_header ++ 10 :: lit "hello" ++ [10]))))
                     1672531200000 1700000000000) /\
    utf8_encode (utf8_decode (gzip_stored (old_header ++ 10 :: lit "hello" ++ [10])))
      <> gzip_stored (old_header ++ 10 :: lit "hello" ++ [10]).
Proof.
  destruct (gzipCompressLog_mangles utc_host latest_log
              {| isFile := true; birthtimeMs := 1672531200000;
                 ctimeMs := 1672531200000 |}
              scenario_world (old_header ++ 10 :: lit "hello" ++ [10])
              1672531200000 1672531200000 1672531200000
              (gzip_stored (old_header ++ 10 :: lit "hello" ++ [10])))
    as (w' & Hrun & Hfile & Hlost).
  - vm_compute. reflexivity.
  - vm_compute. reflexivity.
  - vm_compute. reflexivity.
  - vm_compute. discriminate.
  - exists w'. split; [exact Hrun |]. split; [exact Hfile |].
    eapply Hlost. vm_compute. reflexivity.
Defined.

(** An [Info] message at the grandchild, thresholds at [Info], the root's
    stream open: one line on the console, one chunk given to the stream. *)
Lemma print_thresholds_witness :
  exists w',
    print utc_host 3 2%nat Info hi (family (Some 1%nat) None None) = Ok tt w' /\
    console w' = [(Info, lit "> INFO hi")] /\
    streams w' !! 1%nat
      = Some {| ws_path := app_log; closed := false; destroyed := false;
                written := [lit "INFO hi" ++ [10]] |}.
Proof.
  destruct (print_thresholds utc_host 3 (family (Some 1%nat) None None) 2%nat
              (plain_logger (Some 1%nat) None [(Info, 4%nat)]) [2; 1; 0]%nat Info hi)
    as (w' & Hrun & Hconsole & _ & Hfile & _).
  - apply family_chain.
  - simpl; lia.
  - reflexivity.
  - intros s Hs. vm_compute in Hs. injection Hs as <-. eexists; reflexivity.
  - exists w'. split; [exact Hrun |]. split.
    + apply Hconsole. exists Info. split; [reflexivity | simpl; lia].
    + apply (Hfile 1%nat {| ws_path := app_log; closed := false; destroyed := false;
                            written := [] |} Info);
        reflexivity.
Defined.

(** [info] at the grandchild reaches the [Info] listeners 4, 2 and 1 of the
    grandchild, the child and the root, in this order; [err] reaches the one
    [Error] listener, 3, at the child. *)
Lemma print_bubbles_witness :
  (exists w',
      info utc_host 3 2%nat hi (family None None None) = Ok tt w' /\
      map (fun c => (call_at c, call_listener c, call_event c)) (calls w')
      = [(2, 4, Info); (1, 2, Info); (0, 1, Info)]%nat) /\
  (exists w',
      err utc_host 3 2%nat hi (family None None None) = Ok tt w' /\
      map (fun c => (call_at c, call_listener c, call_event c)) (calls w')
      = [(1, 3, Error)]%nat).
Proof.
  destruct (print_bubbles utc_host 3 (family None None None) 2%nat
              (plain_logger (Some 1%nat) None [(Info, 4%nat)]) [2; 1; 0]%nat Info hi)
    as (_ & _ & _ & _ & _ & (w1 & Hinfo & Hcalls1) & _ & _ & _ & (w2 & Herr & Hcalls2)).
  - apply family_chain.
  - simpl; lia.
  - reflexivity.
  - intros s Hs. vm_compute in Hs. discriminate.
  - split.
    + exists w1. split; [exact Hinfo |]. rewrite Hcalls1. reflexivity.
    + exists w2. split; [exact Herr |]. rewrite Hcalls2. reflexivity.
Defined.

(** [new Logger().clone({ logLevel: Error })]: the original's write threshold
    is [Info], the clone's is [Error]. *)
Lemma clone_thresholds_witness :
  exists l' w' o',
    clone 2 0%nat (only_logLevel Error) true lone_world = Ok l' w' /\
    loggers w' !! l' = Some o' /\
    writeLevel (constructed 0%nat no_options) = Some Info /\
    writeLevel o' = Some Error.
Proof.
  destruct (clone_thresholds 2 lone_world 0%nat (constructed 0%nat no_options)
              [0%nat] (only_logLevel Error) true)
    as (l' & w' & o' & Hrun & _ & Hlook & _ & Hlog & Hwrite).
  - eapply chain_root; reflexivity.
  - simpl; lia.
  - reflexivity.
  - reflexivity.
  - exists l', w', o'. split; [exact Hrun |]. split; [exact Hlook |].
    split; [reflexivity |].
    rewrite (Hwrite eq_refl). exact Hlog.
Defined.

(** Assigning stream 1 to the grandchild of a family without streams stores
    it in the child and in the root too; where the root has stream 1
    already, assigning stream 7 to the grandchild leaves the child without a
    stream of its own, resolving to stream 1 as before. *)
Lemma writeStream_sharing_witness :
  (exists w',
      set_writeStream 3 2%nat (Some 1%nat) (family None None None) = Ok tt w' /\
      get_writeStream 3 1%nat w' = Ok (Some 1%nat) w' /\
      loggers w' !! 0%nat = Some (plain_logger None (Some 1%nat) [(Info, 1%nat)])) /\
  (exists w',
      set_writeStream 3 2%nat (Some 7%nat) (family (Some 1%nat) None None) = Ok tt w' /\
      loggers w' !! 1%nat
        = Some (plain_logger (Some 0%nat) None [(Info, 2%nat); (Error, 3%nat)]) /\
      get_writeStream 3 1%nat w' = Ok (Some 1%nat) w').
Proof.
  split.
  - destruct (writeStream_sharing 3 (family None None None) 2%nat
                (plain_logger (Some 1%nat) None [(Info, 4%nat)]) [2; 1; 0]%nat 1%nat)
      as (_ & w' & Hset & _ & Hparent & _).
    + apply family_chain.
    + simpl; lia.
    + reflexivity.
    + exists w'. split; [exact Hset |].
      split; [apply (Hparent 1%nat); vm_compute; reflexivity |].
      vm_compute in Hset. injection Hset as <-. vm_compute. reflexivity.
  - destruct (writeStream_sharing 3 (family (Some 1%nat) None None) 2%nat
                (plain_logger (Some 1%nat) None [(Info, 4%nat)]) [2; 1; 0]%nat 7%nat)
      as (_ & w' & Hset & _ & _ & _ & Hresolved).
    + apply family_chain.
    + simpl; lia.
    + reflexivity.
    + exists w'. split; [exact Hset |].
      apply (Hresolved 1%nat _ 1%nat);
        [simpl; left | reflexivity | vm_compute; reflexivity].
Defined.

(** Two calls in a row at the grandchild: the first returns, the second
    throws. *)
Lemma createFileWriteStream_already_open_witness :
  exists w1,
    createFileWriteStream utc_host 3 2%nat append_app_log (family None None None)
      = Ok 2%nat w1 /\
    createFileWriteStream utc_host 3 2%nat append_app_log w1
      = Throw already_created w1.
Proof.
  destruct (createFileWriteStream_already_open utc_host 3 2%nat append_app_log)
    as [_ Hsecond].
  eexists. split; [vm_compute; reflexivity |].
  apply (Hsecond append_app_log (family None None None) 2%nat).
  vm_compute. reflexivity.
Defined.

(** The root holds the open stream 1 and nobody below has a stream: the
    grandchild cannot create one. *)
Lemma createFileWriteStream_ancestor_open_witness :
  createFileWriteStream utc_host 3 2%nat append_app_log (family (Some 1%nat) None None)
  = Throw already_created (family (Some 1%nat) None None).
Proof.
  apply (createFileWriteStream_ancestor_open utc_host 3 (family (Some 1%nat) None None)
           2%nat (plain_logger (Some 1%nat) None [(Info, 4%nat)]) [1%nat] 0%nat
           (plain_logger None (Some 1%nat) [(Info, 1%nat)]) [] 1%nat
           {| ws_path := app_log; closed := false; destroyed := false; written := [] |}).
  - apply family_chain.
  - simpl; lia.
  - reflexivity.
  - reflexivity.
  - intros b ob Hb%list_elem_of_singleton Hob. subst b.
    vm_compute in Hob. injection Hob as <-. reflexivity.
  - reflexivity.
  - reflexivity.
  - reflexivity.
  - reflexivity.
  - reflexivity.
Defined.

(** C10 as stated fails when a nearer ancestor has a closed stream of its
    own: the root holds the open stream 1, its child the closed stream 0,
    and the grandchild, which never had a stream, is given a new one. *)
Lemma createFileWriteStream_shadowed :
  let w := family (Some 1%nat) (Some 0%nat) None in
  chain (loggers w) 2%nat [2; 1; 0]%nat /\
  (_writeStream <$> loggers w !! 2%nat) = Some None /\
  (_writeStream <$> loggers w !! 0%nat) = Some (Some 1%nat) /\
  ((fun ws => (closed ws, destroyed ws)) <$> streams w !! 1%nat) = Some (false, false) /\
  match createFileWriteStream utc_host 3 2%nat append_app_log w with
  | Ok l w' => l = 2%nat /\ (_writeStream <$> loggers w' !! 2%nat) = Some (Some 2%nat)
  | _ => False
  end.
Proof.
  split; [apply family_chain |].
  vm_compute. repeat split; reflexivity.
Qed.

(** ** The static factory, mode by mode *)






Lemma bind_step {A B} (m : M A) (k : A -> M B) w a w' :
  m w = Ok a w' -> bind m k w = k a w'.
Proof. intros H. unfold bind. rewrite H. reflexivity. Qed.


Ltac step H := rewrite (bind_step _ _ _ _ _ H); cbv beta.










(** X7: when the codec reports an error, [gzipCompressLog] rejects with that
    error before it has written or renamed anything. *)
Theorem gzipCompressLog_codec_error (host : Host) (file : jsstring) (st : Stats)
    (w : World) (content : list Z) (b ch t : Z) (e : jsstring) :
  files w !! file = Some (FsFile content b ch) ->
  header_date host st (split_on 10 (utf8_decode content)) = Some t ->
  gzip host (utf8_encode (utf8_decode content)) = inr e ->
  gzipCompressLog host file st w = Throw e w.
Proof.
  intros Hfile Hdate Hgzip. unfold gzipCompressLog.
  step (readFile_file _ _ _ _ _ Hfile).
  erewrite bind_step
    by (apply getFileCreationDate_given, split_on_nonempty).
  cbv beta. rewrite Hdate.
  step (formatDateFileName_valid host t w).
  rewrite join_split, Hgzip. reflexivity.
Qed.

(** ** Dates written and read back *)

Lemma all_from_spec n z P v :
  all_from n z P = true -> z <= v < z + Z.of_nat n -> P v = true.
Proof.
  revert z; induction n as [|k IH]; intros z; simpl; [lia |].
  destruct (P z) eqn:Hz; [| discriminate].
  intros H Hv. destruct (Z.eq_dec v z) as [-> | Hne]; [assumption |].
  apply (IH (z + 1)); [assumption | lia].
Qed.

Lemma all_two_digits : all_from (Z.to_nat 100) 0 digits_ok = true.
Proof. vm_cast_no_check (eq_refl true). Qed.

Lemma all_three_digits : all_from (Z.to_nat 1000) 0 digits3_ok = true.
Proof. vm_cast_no_check (eq_refl true). Qed.

Lemma all_four_digits : all_from (Z.to_nat 10000) 0 digits4_ok = true.
Proof. vm_cast_no_check (eq_refl true). Qed.

(** The year of the era and the day of its year, for a day of the era. *)
Lemma era_year doe :
  0 <= doe < 146097 ->
  let yoe := (doe - doe / 1460 + doe / 36524 - doe / 146096) / 365 in
  let doy := doe - (365 * yoe + yoe / 4 - yoe / 100) in
  0 <= yoe <= 399 /\ 0 <= doy <= 365 /\
  (doy = 365 -> (yoe + 1) mod 4 = 0 /\ ((yoe + 1) mod 100 <> 0 \/ yoe = 399)) /\
  (146037 <= doe -> yoe = 399 /\ 306 <= doy) /\
  (doe < 146037 -> yoe <= 398 \/ doy < 306).
Proof.
  intros H yoe doy. subst doy yoe.
  Z.to_euclidean_division_equations. lia.
Qed.

Lemma all_year_days : all_from (Z.to_nat 366) 0 year_day_ok = true.
Proof. vm_cast_no_check (eq_refl true). Qed.

Lemma era_dates_ok doe : 0 <= doe < 146097 -> era_date_ok doe = true.
Proof.
  intros Hdoe.
  destruct (era_year doe Hdoe) as (Hyoe & Hdoy & Hleap & Hlate & Hearly).
  cbv zeta in Hyoe, Hdoy, Hleap, Hlate, Hearly.
  unfold era_date_ok, era_date, era_day. cbv zeta.
  set (yoe := (doe - doe / 1460 + doe / 36524 - doe / 146096) / 365) in *.
  set (doy := doe - (365 * yoe + yoe / 4 - yoe / 100)) in *.
  pose proof (all_from_spec _ _ _ doy all_year_days ltac:(simpl; lia)) as Hok.
  unfold year_day_ok in Hok. cbv zeta in Hok.
  set (mp := (5 * doy + 2) / 153) in *.
  set (d := doy - (153 * mp + 2) / 5 + 1) in *.
  set (m := if mp <? 10 then mp + 3 else mp - 9) in *.
  repeat (apply andb_prop in Hok as [Hok ?]).
  repeat match goal with
         | H : (_ <=? _) = true |- _ => apply Z.leb_le in H
         | H : (_ =? _) = true |- _ => apply Z.eqb_eq in H
         end.
  assert (Hfeb : d <= days_in_month (if m <=? 2 then yoe + 1 else yoe) m).
  { match goal with H : _ || _ = true |- _ => apply orb_prop in H as [Hd | Hd] end.
    - apply Z.leb_le in Hd. unfold days_in_month in *.
      destruct (m =? 2); [| assumption].
      change (is_leap 1) with false in Hd. cbv iota in Hd.
      destruct (is_leap _); lia.
    - apply andb_prop in Hd as [Hd Hd29]. apply andb_prop in Hd as [Hd365 Hm2].
      apply Z.eqb_eq in Hd365, Hm2, Hd29.
      destruct (Hleap Hd365) as [H4 H100].
      rewrite Hm2. simpl. unfold days_in_month. simpl. unfold is_leap.
      rewrite H4. simpl.
      destruct H100 as [H100 | ->]; [| simpl; lia].
      apply Z.eqb_neq in H100. rewrite H100. simpl. lia. }
  assert (Hend : (if 146037 <=? doe
                  then (yoe =? 399) && (m <=? 2)
                  else (if m <=? 2 then yoe + 1 else yoe) <=? 399) = true).
  { match goal with
    | H : (if 306 <=? doy then _ else _) = true |- _ => rename H into Hside
    end.
    destruct (Z.leb_spec 146037 doe) as [Hl | Hl].
    - destruct (Hlate Hl) as [-> Hd306].
      rewrite (proj2 (Z.leb_le 306 doy) Hd306) in Hside. rewrite Hside. reflexivity.
    - destruct (Hearly Hl) as [Hy | Hd306].
      + apply Z.leb_le. destruct (m <=? 2); lia.
      + rewrite (proj2 (Z.leb_gt 306 doy) Hd306) in Hside.
        apply Z.leb_le in Hside.
        rewrite (proj2 (Z.leb_gt m 2)) by lia. apply Z.leb_le. lia. }
  rewrite Hend.
  repeat (apply andb_true_intro; split); try (apply Z.leb_le; lia); try reflexivity.
  apply Z.eqb_eq. unfold doy in *. lia.
Qed.

Ltac euclid := Z.to_euclidean_division_equations; lia.

Lemma is_leap_era a era : is_leap (a + era * 400) = is_leap a.
Proof.
  unfold is_leap.
  replace ((a + era * 400) mod 4) with (a mod 4) by euclid.
  replace ((a + era * 400) mod 100) with (a mod 100) by euclid.
  replace ((a + era * 400) mod 400) with (a mod 400) by euclid.
  reflexivity.
Qed.

Lemma days_in_month_era a era m :
  days_in_month (a + era * 400) m = days_in_month a m.
Proof. unfold days_in_month. rewrite is_leap_era. reflexivity. Qed.

Lemma civil_from_days_era z0 :
  civil_from_days z0
  = let era := (z0 + 719468) / 146097 in
    let '(yoe, m, d) := era_date (z0 + 719468 - era * 146097) in
    ((if m <=? 2 then yoe + 1 else yoe) + era * 400, m, d).
Proof.
  unfold civil_from_days, era_date. cbv beta iota zeta.
  match goal with |- context [if ?c <=? 2 then _ else _] => destruct (c <=? 2) end;
    f_equal; f_equal; lia.
Qed.

Lemma days_from_civil_era yoe era m d :
  0 <= yoe <= 399 ->
  days_from_civil ((if m <=? 2 then yoe + 1 else yoe) + era * 400) m d
  = era * 146097 + era_day yoe m d - 719468.
Proof.
  intros Hy. unfold days_from_civil, era_day. cbv zeta.
  destruct (m <=? 2).
  - replace (yoe + 1 + era * 400 - 1) with (yoe + era * 400) by lia.
    replace ((yoe + era * 400) / 400) with era by euclid.
    replace (yoe + era * 400 - era * 400) with yoe by lia. lia.
  - replace ((yoe + era * 400) / 400) with era by euclid.
    replace (yoe + era * 400 - era * 400) with yoe by lia. lia.
Qed.

Lemma two_digits_spec v :
  0 <= v < 100 ->
  padStart0 2 (Number_toString v) = two_digits v /\
  digits_val 0 (two_digits v) = Some v.
Proof.
  intros Hv.
  pose proof (all_from_spec _ _ _ v all_two_digits ltac:(simpl; lia)) as H.
  unfold digits_ok in H. apply andb_prop in H as [H1 H2].
  apply bool_decide_eq_true_1 in H1, H2. auto.
Qed.

Lemma three_digits_spec v :
  0 <= v < 1000 ->
  padStart0 3 (Number_toString v) = three_digits v /\
  digits_val 0 (three_digits v) = Some v.
Proof.
  intros Hv.
  pose proof (all_from_spec _ _ _ v all_three_digits ltac:(simpl; lia)) as H.
  unfold digits3_ok in H. apply andb_prop in H as [H1 H2].
  apply bool_decide_eq_true_1 in H1, H2. auto.
Qed.

Lemma four_digits_spec v :
  0 <= v < 10000 ->
  padStart0 4 (Number_toString v) = four_digits v /\
  digits_val 0 (four_digits v) = Some v.
Proof.
  intros Hv.
  pose proof (all_from_spec _ _ _ v all_four_digits ltac:(simpl; lia)) as H.
  unfold digits4_ok in H. apply andb_prop in H as [H1 H2].
  apply bool_decide_eq_true_1 in H1, H2. auto.
Qed.

(** The date of a day between 0000-01-01 and 9999-12-31 is a valid one in
    those years, and [days_from_civil] takes it back to the day. *)
Lemma civil_round_trip z :
  -719528 <= z <= 2932896 ->
  exists y m d,
    civil_from_days z = (y, m, d) /\
    0 <= y <= 9999 /\ 1 <= m <= 12 /\ 1 <= d <= days_in_month y m /\
    days_from_civil y m d = z.
Proof.
  intros Hz. rewrite civil_from_days_era. cbv zeta.
  set (era := (z + 719468) / 146097).
  set (doe := z + 719468 - era * 146097).
  assert (Hdoe : 0 <= doe < 146097) by (unfold doe, era; euclid).
  assert (Hera : -1 <= era <= 24) by (unfold era; euclid).
  pose proof (era_dates_ok doe Hdoe) as Hok.
  unfold era_date_ok in Hok.
  destruct (era_date doe) as [[yoe m] d].
  repeat (apply andb_prop in Hok as [Hok ?]).
  repeat match goal with
         | H : (_ <=? _) = true |- _ => apply Z.leb_le in H
         | H : (_ =? _) = true |- _ => apply Z.eqb_eq in H
         end.
  exists ((if m <=? 2 then yoe + 1 else yoe) + era * 400), m, d.
  split; [reflexivity |].
  rewrite days_in_month_era, days_from_civil_era by lia.
  assert (Hyear : 0 <= (if m <=? 2 then yoe + 1 else yoe) + era * 400 <= 9999).
  { destruct (Z.leb_spec 146037 doe).
    - match goal with H : _ && _ = true |- _ => apply andb_prop in H as [Hy Hm] end.
      apply Z.eqb_eq in Hy. rewrite Hm.
      assert (era < 24) by (unfold doe in *; lia). lia.
    - match goal with H : (_ <=? 399) = true |- _ => apply Z.leb_le in H end.
      assert (0 <= era) by (unfold doe in *; lia).
      destruct (m <=? 2); lia. }
  repeat split; lia.
Qed.

Lemma parse_iso_utc_fields y1 y2 y3 y4 m1 m2 d1 d2 h1 h2 n1 n2 s1 s2 f1 f2 f3
    y m d h n s f :
  digits_val 0 [y1; y2; y3; y4] = Some y -> digits_val 0 [m1; m2] = Some m ->
  digits_val 0 [d1; d2] = Some d -> digits_val 0 [h1; h2] = Some h ->
  digits_val 0 [n1; n2] = Some n -> digits_val 0 [s1; s2] = Some s ->
  digits_val 0 [f1; f2; f3] = Some f ->
  1 <= m <= 12 -> 1 <= d <= days_in_month y m -> h <= 23 -> n <= 59 -> s <= 59 ->
  parse_iso_utc [y1; y2; y3; y4; 45; m1; m2; 45; d1; d2; 84; h1; h2; 58; n1; n2; 58;
                 s1; s2; 46; f1; f2; f3; 90]
  = Some (days_from_civil y m d * msPerDay + h * msPerHour + n * msPerMinute
          + s * msPerSecond + f).
Proof.
  intros Hy Hm Hd Hh Hn Hs Hf Rm Rd Rh Rn Rs.
  unfold parse_iso_utc. rewrite Hy, Hm, Hd, Hh, Hn, Hs, Hf.
  repeat match goal with
         | |- context [?a <=? ?b] =>
             rewrite (proj2 (Z.leb_le a b)) by lia
         end.
  reflexivity.
Qed.

(** What [toISOString] writes for a date of the years 0000 to 9999 is read
    back as the same time value. *)
Lemma iso_round_trip t :
  -62167219200000 <= t <= 253402300799999 ->
  parse_iso_utc (iso_of_time t) = Some t.
Proof.
  intros Ht.
  assert (Hz : -719528 <= t / msPerDay <= 2932896) by (unfold msPerDay; euclid).
  destruct (civil_round_trip _ Hz) as (y & m & d & Hcivil & Hy & Hm & Hd & Hback).
  unfold iso_of_time. rewrite Hcivil.
  assert (Hfields :
    exists h n s f,
      t mod msPerDay / msPerHour = h /\ t mod msPerDay / msPerMinute mod 60 = n /\
      t mod msPerDay / msPerSecond mod 60 = s /\ t mod msPerDay mod 1000 = f /\
      0 <= h <= 23 /\ 0 <= n <= 59 /\ 0 <= s <= 59 /\ 0 <= f <= 999 /\
      t = t / msPerDay * msPerDay + h * msPerHour + n * msPerMinute
          + s * msPerSecond + f).
  { clear. do 4 eexists. repeat (split; [reflexivity |]).
    unfold msPerDay, msPerHour, msPerMinute, msPerSecond. euclid. }
  destruct Hfields as (h & n & s & f & -> & -> & -> & -> & Hh & Hn & Hs & Hf & Hsum).
  assert (Hdmax : days_in_month y m <= 31)
    by (unfold days_in_month; repeat match goal with
                                     | |- context [if ?c then _ else _] => destruct c
                                     end; lia).
  rewrite (proj2 (Z.leb_le 0 y)), (proj2 (Z.leb_le y 9999)) by lia.
  cbn [andb].
  destruct (four_digits_spec y ltac:(lia)) as [-> Hy4].
  destruct (two_digits_spec m ltac:(lia)) as [-> Hm2].
  destruct (two_digits_spec d ltac:(lia)) as [-> Hd2].
  destruct (two_digits_spec h ltac:(lia)) as [-> Hh2].
  destruct (two_digits_spec n ltac:(lia)) as [-> Hn2].
  destruct (two_digits_spec s ltac:(lia)) as [-> Hs2].
  destruct (three_digits_spec f ltac:(lia)) as [-> Hf3].
  change (lit "-") with [45]. change (lit "T") with [84].
  change (lit ":") with [58]. change (lit ".") with [46]. change (lit "Z") with [90].
  unfold four_digits, two_digits, three_digits in *. cbn [app].
  rewrite (parse_iso_utc_fields _ _ _ _ _ _ _ _ _ _ _ _ _ _ _ _ _
             _ _ _ _ _ _ _ Hy4 Hm2 Hd2 Hh2 Hn2 Hs2 Hf3) by lia.
  f_equal. rewrite Hback. symmetry. exact Hsum.
Qed.

Lemma trim_bracketed s : trim (91 :: s ++ [93]) = 91 :: s ++ [93].
Proof.
  unfold trim. cbn [trim_start]. change (is_js_space 91) with false. cbv iota.
  cbn [rev]. rewrite rev_app_distr. cbn [rev app trim_start].
  change (is_js_space 93) with false. cbv iota.
  cbn [rev]. rewrite rev_app_distr, rev_involutive. reflexivity.
Qed.

(** X8: the header has the last word on the creation date, and it is the
    one [logDateHeader] wrote: for a date of the years 0000 to 9999,
    [getFileCreationDate] reads the header line of that date back as the
    same date, whatever the stat data and the host's time zone are. *)
Theorem getFileCreationDate_reads_header (host : Host) (file : jsstring)
    (st : Stats) (t : Z) (rest : list jsstring) (w : World) :
  -62167219200000 <= t <= 253402300799999 ->
  exists header,
    logDateHeader (Some t) w = Ok header w /\
    getFileCreationDate host file (Some st) (Some (header :: rest)) w = Ok (Some t) w.
Proof.
  intros Ht. exists (91 :: iso_of_time t ++ [93]). split; [reflexivity |].
  rewrite getFileCreationDate_given by discriminate.
  unfold header_date. cbn [hd]. rewrite trim_bracketed.
  assert (Hend : endsWith (91 :: iso_of_time t ++ [93]) 93 = true).
  { unfold endsWith. cbn [rev]. rewrite rev_app_distr. reflexivity. }
  rewrite Hend.
  assert (Hinner : substring_inner (91 :: iso_of_time t ++ [93]) = iso_of_time t)
    by (unfold substring_inner; apply removelast_last).
  rewrite Hinner. unfold Date_of_string. rewrite (iso_round_trip t Ht).
  reflexivity.
Qed.

(** ** Loggers made and cloned *)

Lemma head_reached h l cs : l ∈ reached h (l :: cs).
Proof. unfold reached. destruct (first_stream h (tail (l :: cs))); simpl; left. Qed.

Lemma first_stream_same h h' ds :
  (forall a, a ∈ ds -> h' !! a = h !! a) -> first_stream h' ds = first_stream h ds.
Proof.
  induction ds as [|d ds IH]; intros Hall; simpl; [reflexivity |].
  rewrite Hall by left. rewrite IH by (intros a Ha; apply Hall; right; assumption).
  reflexivity.
Qed.

Lemma Logger_new_world fuel options w cs :
  ancestry (loggers w) (stored (opt_parent options)) cs ->
  (S (length cs) <= fuel)%nat ->
  Logger_new fuel options w
  = Ok (fresh (dom (loggers w)))
       (with_loggers (constructed_store (fresh (dom (loggers w))) options cs) w).
Proof.
  intros Hanc Hf.
  set (l := fresh (dom (loggers w))).
  assert (Hfresh : loggers w !! l = None)
    by (apply not_elem_of_dom, is_fresh).
  unfold Logger_new. cbv [bind get modify ret]. fold l.
  match goal with |- context [with_loggers (insert l ?O) w] => set (obj := O) end.
  assert (Hobj : obj = set_own_stream None (constructed l options)).
  { unfold obj, constructed, set_own_stream. simpl.
    destruct (opt_writeLevel options) as [| | |[]]; reflexivity. }
  set (w1 := with_loggers (insert l obj) w).
  assert (Hc : chain (loggers w1) l (l :: cs)).
  { simpl. destruct (stored (opt_parent options)) as [p|] eqn:Hp; simpl in Hanc.
    - apply (chain_step _ _ obj p); [apply lookup_insert_eq | reflexivity |].
      apply chain_insert_fresh; assumption.
    - subst cs. apply (chain_root _ _ obj); [apply lookup_insert_eq | reflexivity]. }
  rewrite (set_writeStream_chain fuel w1 l (l :: cs)) by (assumption || (simpl; lia)).
  unfold constructed_store. fold l. rewrite <- Hobj. reflexivity.
Qed.

Lemma set_own_stream_same o : set_own_stream (_writeStream o) o = o.
Proof. destruct o; reflexivity. Qed.

Lemma chain_in_store h l cs a : chain h l cs -> a ∈ cs -> is_Some (h !! a).
Proof. apply chain_lookup. Qed.

Lemma ancestry_known h p cs a : ancestry h p cs -> a ∈ cs -> is_Some (h !! a).
Proof.
  destruct p as [p|]; simpl; [apply chain_lookup | intros -> Ha; inversion Ha].
Qed.

Lemma first_stream_insert_fresh h l obj cs :
  l ∉ cs -> first_stream (<[l := obj]> h) cs = first_stream h cs.
Proof.
  induction cs as [|c rest IH]; intros Hl; simpl; [reflexivity |].
  apply not_elem_of_cons in Hl as [Hne Hl].
  rewrite lookup_insert_ne by congruence. rewrite IH by assumption. reflexivity.
Qed.

(** The loggers there were before a logger without a stream was made are
    all as they were. *)
Lemma constructed_store_others l options cs h a :
  h !! l = None -> ancestry h (stored (opt_parent options)) cs ->
  stored (opt_writeStream options) = None -> a <> l ->
  constructed_store l options cs h !! a = h !! a.
Proof.
  intros Hfresh Hanc Hnone Ha. unfold constructed_store. cbv zeta.
  rewrite Hnone, assign_all_lookup.
  assert (Hl : l ∉ cs).
  { intros Hin. destruct (ancestry_known _ _ _ _ Hanc Hin) as [x Hx]. congruence. }
  case_bool_decide as Hin; [| apply lookup_insert_ne; congruence].
  rewrite lookup_insert_ne by congruence.
  unfold reached in Hin. cbn [tail] in Hin.
  rewrite first_stream_insert_fresh in Hin by assumption.
  destruct (first_stream h cs) eqn:Hfs.
  - apply list_elem_of_singleton in Hin. congruence.
  - apply elem_of_cons in Hin as [? | Hin]; [congruence |].
    destruct (ancestry_known _ _ _ _ Hanc Hin) as [oa Hoa]. rewrite Hoa. simpl.
    f_equal. rewrite <- (first_stream_None _ _ _ _ Hfs Hin Hoa).
    apply set_own_stream_same.
Qed.

(** X9: making a logger without a write stream changes no logger that was
    there before, whatever its parent is. *)
Theorem Logger_new_keeps_others (fuel : nat) (options : Options) (w : World)
    (cs : list loc) :
  ancestry (loggers w) (stored (opt_parent options)) cs ->
  (S (length cs) <= fuel)%nat ->
  stored (opt_writeStream options) = None ->
  exists l w',
    Logger_new fuel options w = Ok l w' /\
    loggers w !! l = None /\
    (forall a, a <> l -> loggers w' !! a = loggers w !! a) /\
    streams w' = streams w /\ files w' = files w /\ calls w' = calls w.
Proof.
  intros Hanc Hf Hnone.
  assert (Hfresh : loggers w !! fresh (dom (loggers w)) = None)
    by (apply not_elem_of_dom, is_fresh).
  do 2 eexists. split; [apply (Logger_new_world _ _ _ cs); assumption |].
  split; [exact Hfresh |]. split; [| auto].
  intros a Ha. simpl. apply constructed_store_others; assumption.
Qed.

(** X10: [new Logger({ parent, writeStream })] shares the stream upwards: the
    new logger resolves to it, and afterwards the parent's getter returns it
    too when it returned nothing before, and what it returned before
    otherwise. *)
Theorem Logger_new_shares_stream (fuel : nat) (options : Options) (w : World)
    (p : loc) (cs : list loc) (s : sid) :
  stored (opt_parent options) = Some p -> chain (loggers w) p cs ->
  (S (length cs) <= fuel)%nat ->
  stored (opt_writeStream options) = Some s ->
  forall before, get_writeStream fuel p w = Ok before w ->
  exists l w',
    Logger_new fuel options w = Ok l w' /\
    get_writeStream fuel l w' = Ok (Some s) w' /\
    get_writeStream fuel p w' = Ok (Some (default s before)) w'.
Proof.
  intros Hp Hc Hf Hs before Hbefore.
  assert (Hb : before = first_stream (loggers w) cs).
  { rewrite (get_writeStream_chain fuel w p cs) in Hbefore by (assumption || lia).
    congruence. }
  subst before. clear Hbefore.
  assert (Hanc : ancestry (loggers w) (stored (opt_parent options)) cs)
    by (rewrite Hp; exact Hc).
  set (l := fresh (dom (loggers w))).
  assert (Hfresh : loggers w !! l = None) by (apply not_elem_of_dom, is_fresh).
  assert (Hl : l ∉ cs).
  { intros Hin. destruct (chain_lookup _ _ _ _ Hc Hin) as [x Hx]. congruence. }
  exists l. eexists. split; [apply (Logger_new_world _ _ _ cs); assumption |].
  fold l.
  set (h1 := <[l := set_own_stream None (constructed l options)]> (loggers w)).
  assert (Hc1 : chain h1 p cs) by (apply chain_insert_fresh; assumption).
  assert (Hcl : chain h1 l (l :: cs)).
  { apply (chain_step _ _ (set_own_stream None (constructed l options)) p);
      [apply lookup_insert_eq | exact Hp | exact Hc1]. }
  assert (Hfirst1 : first_stream h1 cs = first_stream (loggers w) cs)
    by (apply first_stream_insert_fresh; assumption).
  split.
  - rewrite (get_writeStream_chain fuel _ l (l :: cs));
      [| apply chain_assign_all; exact Hcl | simpl; lia].
    simpl. unfold constructed_store. cbv zeta. fold l. fold h1. rewrite Hs.
    rewrite assign_all_lookup.
    rewrite bool_decide_eq_true_2
      by apply head_reached.
    assert (Hl1 : h1 !! l = Some (set_own_stream None (constructed l options)))
      by apply lookup_insert_eq.
    rewrite Hl1. reflexivity.
  - rewrite (get_writeStream_chain fuel _ p cs);
      [| apply chain_assign_all; exact Hc1 | simpl; lia].
    f_equal. simpl. unfold constructed_store. cbv zeta. fold l. fold h1. rewrite Hs.
    unfold reached. cbn [tail]. rewrite Hfirst1.
    destruct (first_stream (loggers w) cs) as [x|] eqn:Hfs; simpl.
    + cbn [assign_all]. rewrite first_stream_alter by assumption.
      rewrite Hfirst1. reflexivity.
    + inversion Hc1 as [p' op Hop Hpar | p' op q cs' Hop Hpar Hc'];
        subst; cbn [assign_all first_stream].
      * rewrite lookup_alter, decide_True by reflexivity.
        rewrite lookup_alter, decide_False by (intros ->; apply Hl; left).
        rewrite Hop. reflexivity.
      * assert (Hsome : exists o', assign_all (Some s) cs'
                  (alter (set_own_stream (Some s)) p
                     (alter (set_own_stream (Some s)) l h1)) !! p = Some o'
                  /\ _writeStream o' = Some s).
        { rewrite assign_all_lookup. rewrite lookup_alter, decide_True by reflexivity.
          rewrite lookup_alter, decide_False by (intros ->; apply Hl; left).
          rewrite Hop. case_bool_decide; simpl; eauto. }
        destruct Hsome as (o' & -> & ->). reflexivity.
Qed.

(** X11: a clone resolves to the stream the original resolves to, when the
    options set neither a stream nor a parent. *)
Theorem clone_same_stream (fuel : nat) (w : World) (l : loc) (o : Logger)
    (cs : list loc) (options : Options) (inheritParent : bool) :
  chain (loggers w) l cs -> (S (length cs) <= fuel)%nat ->
  loggers w !! l = Some o ->
  opt_parent options = Absent -> opt_writeStream options = Absent ->
  forall resolved, get_writeStream fuel l w = Ok resolved w ->
  exists l' w',
    clone fuel l options inheritParent w = Ok l' w' /\
    loggers w !! l' = None /\
    get_writeStream fuel l' w' = Ok resolved w'.
Proof.
  intros Hc Hf Hl Hparent Hstream resolved Hres.
  assert (Hr : resolved = first_stream (loggers w) cs).
  { rewrite (get_writeStream_chain fuel w l cs) in Hres by (assumption || lia).
    congruence. }
  subst resolved. clear Hres.
  set (merged := clone_options l o (first_stream (loggers w) cs) options inheritParent).
  set (l' := fresh (dom (loggers w))).
  assert (Hfresh : loggers w !! l' = None) by (apply not_elem_of_dom, is_fresh).
  assert (Hstoredp : stored (opt_parent merged)
                     = if inheritParent then parent o else Some l).
  { unfold merged, clone_options. simpl. rewrite Hparent. simpl.
    destruct inheritParent; [destruct (parent o) |]; reflexivity. }
  assert (Hstoreds : stored (opt_writeStream merged) = first_stream (loggers w) cs).
  { unfold merged, clone_options. simpl. rewrite Hstream. simpl.
    destruct (first_stream (loggers w) cs); reflexivity. }
  set (cs' := if inheritParent then tail cs else cs).
  assert (Hanc : ancestry (loggers w) (stored (opt_parent merged)) cs').
  { rewrite Hstoredp. unfold cs'. destruct inheritParent; simpl; [| assumption].
    destruct (parent o) as [p|] eqn:Hp; simpl.
    - apply (chain_tail _ _ _ _ _ Hc Hl Hp).
    - inversion Hc; subst; [reflexivity | congruence]. }
  assert (Hlen : (S (length cs') <= fuel)%nat).
  { unfold cs'. destruct inheritParent; [| assumption]. destruct cs; simpl in *; lia. }
  assert (Hnew : clone fuel l options inheritParent w
                 = Ok l' (with_loggers (constructed_store l' merged cs') w)).
  { unfold clone. cbv [bind].
    rewrite (toJSON_chain fuel w l o cs Hc) by (assumption || lia).
    unfold this_logger. cbv [bind get ret]. rewrite Hl.
    apply Logger_new_world; assumption. }
  exists l'. eexists. split; [exact Hnew |]. split; [exact Hfresh |].
  assert (Hl' : l' ∉ cs').
  { intros Hin. destruct (ancestry_known _ _ _ _ Hanc Hin) as [x Hx]. congruence. }
  set (h1 := <[l' := set_own_stream None (constructed l' merged)]> (loggers w)).
  assert (Hcl : chain h1 l' (l' :: cs')).
  { destruct (stored (opt_parent merged)) as [p|] eqn:Hp; simpl in Hanc.
    - apply (chain_step _ _ (set_own_stream None (constructed l' merged)) p);
        [apply lookup_insert_eq | exact Hp | apply chain_insert_fresh; assumption].
    - rewrite Hanc. apply (chain_root _ _ (set_own_stream None (constructed l' merged)));
        [apply lookup_insert_eq | exact Hp]. }
  rewrite (get_writeStream_chain fuel _ l' (l' :: cs'));
    [| apply chain_assign_all; exact Hcl | simpl; lia].
  f_equal. simpl. unfold constructed_store. cbv zeta. fold h1. rewrite Hstoreds.
  rewrite assign_all_lookup.
  rewrite bool_decide_eq_true_2
    by apply head_reached.
  assert (Hl1 : h1 !! l' = Some (set_own_stream None (constructed l' merged)))
    by apply lookup_insert_eq.
  rewrite Hl1. simpl.
  destruct (first_stream (loggers w) cs) as [x|] eqn:Hfs; [reflexivity |].
  assert (Hfs' : first_stream (loggers w) cs' = None).
  { unfold cs'. destruct inheritParent; [apply first_stream_tail_None |]; assumption. }
  assert (Hall : forall a, a ∈ cs' ->
            assign_all None (reached h1 (l' :: cs')) h1 !! a = loggers w !! a).
  { intros a Ha.
    pose proof (constructed_store_others l' merged cs' (loggers w) a Hfresh Hanc) as H.
    unfold constructed_store in H. cbv zeta in H. fold h1 in H.
    rewrite Hstoreds in H. apply H; [reflexivity |]. intros ->. tauto. }
  rewrite (first_stream_same (loggers w)) by exact Hall. exact Hfs'.
Qed.

(** ** Sequences of calls *)

Lemma dispatch_nil l o event data :
  dispatch l o event data = [] <-> ~ exists listener, (event, listener) ∈ listeners o.
Proof.
  unfold dispatch. induction (listeners o) as [|[e h] ls IH].
  - split; [intros _ [x Hx]; inversion Hx | reflexivity].
  - rewrite filter_cons. destruct (decide (e = event)) as [-> | Hne]; simpl.
    + split; [discriminate |]. intros Hno. exfalso. apply Hno. exists h. left.
    + rewrite IH. split; intros Hno [x Hx]; apply Hno; exists x.
      * apply elem_of_cons in Hx as [Heq | Hx]; [congruence | assumption].
      * right. assumption.
Qed.

(** X12: what [emit] returns tells whether the logger itself has a listener
    for the event; listeners of the ancestors are called but do not count. *)
Theorem emit_reports_own_listeners (fuel : nat) (w : World) (l : loc) (o : Logger)
    (cs : list loc) (event : LogLevel) (data : EventData) :
  chain (loggers w) l cs -> (length cs <= fuel)%nat ->
  loggers w !! l = Some o ->
  exists result w',
    emit fuel l event data w = Ok result w' /\
    calls w' = calls w ++ flat_map (dispatch_at (loggers w) event data) cs /\
    (result = true <-> exists listener, (event, listener) ∈ listeners o).
Proof.
  intros Hc Hf Hl.
  assert (Hiff : negb (bool_decide (dispatch l o event data = [])) = true
                 <-> exists listener, (event, listener) ∈ listeners o).
  { rewrite negb_true_iff, bool_decide_eq_false, dispatch_nil.
    split; [| tauto]. intros Hnn.
    destruct (decide (Exists (fun '(e, _) => e = event) (listeners o))) as [He | He].
    - apply Exists_exists in He as ([e h] & Hin & ->). eauto.
    - exfalso. apply Hnn. intros [h Hh]. apply He, Exists_exists.
      exists (event, h). auto. }
  destruct (emit_chain fuel w l cs event data Hc Hf) as [r Hr].
  exists r. eexists. split; [exact Hr |]. split; [reflexivity |].
  destruct fuel as [|f]; [inversion Hc; subst; simpl in Hf; lia |].
  simpl in Hr. revert Hr. run. rewrite Hl. simpl.
  destruct (parent o) as [p|].
  - destruct (emit f p event data _) as [r' w2| | |]; try discriminate.
    intros [= <- _]. exact Hiff.
  - intros [= <- _]. exact Hiff.
Qed.

Lemma write_effect_loggers s ws data w : loggers (write_effect s ws data w) = loggers w.
Proof. unfold write_effect. destruct (files w !! ws_path ws) as [[]|]; reflexivity. Qed.

Lemma after_print_loggers host w l o cs level data :
  loggers (after_print host w l o cs level data) = loggers w.
Proof.
  assert (Hc : loggers (after_console host w l o cs level data) = loggers w).
  { unfold after_console. destruct (threshold_met (logLevel o) level); reflexivity. }
  unfold after_print, file_step.
  destruct (first_stream (loggers w) cs) as [s|]; [| exact Hc].
  destruct (streams w !! s) as [ws|]; [| exact Hc].
  destruct (negb (closed ws || destroyed ws) && threshold_met (writeLevel o) level);
    [rewrite write_effect_loggers |]; exact Hc.
Qed.

Lemma after_console_streams host w l o cs level data :
  streams (after_console host w l o cs level data) = streams w.
Proof. unfold after_console. destruct (threshold_met (logLevel o) level); reflexivity. Qed.

Lemma after_print_written host w l o cs level data s ws t :
  first_stream (loggers w) cs = Some s -> streams w !! s = Some ws ->
  closed ws = false -> destroyed ws = false ->
  writeLevel o = Some t -> LogLevel_value t <= LogLevel_value level ->
  streams (after_print host w l o cs level data)
  = <[s := {| ws_path := ws_path ws; closed := false; destroyed := false;
              written := written ws
                         ++ [ev_simple (print_event host w l o level data) ++ [10]] |}]>
      (streams w).
Proof.
  intros Hs Hws Hc Hd Ht Hle.
  unfold after_print, file_step. rewrite Hs, Hws, Hc, Hd.
  rewrite (proj2 (threshold_met_true (writeLevel o) level)) by eauto.
  simpl. rewrite write_effect_streams, after_console_streams. reflexivity.
Qed.

(** X13: two calls of [print] that both reach the write threshold give the
    stream two chunks, in the order of the calls, after what it had; each
    chunk is the simple string of its call and a newline. *)
Theorem print_twice_in_order (host : Host) (fuel : nat) (w : World) (l : loc)
    (o : Logger) (cs : list loc) (s : sid) (ws : WriteStream) (t : LogLevel)
    (level1 level2 : LogLevel) (data1 data2 : list JSValue) :
  chain (loggers w) l cs -> (length cs <= fuel)%nat ->
  loggers w !! l = Some o ->
  get_writeStream fuel l w = Ok (Some s) w -> streams w !! s = Some ws ->
  closed ws = false -> destroyed ws = false ->
  writeLevel o = Some t ->
  LogLevel_value t <= LogLevel_value level1 ->
  LogLevel_value t <= LogLevel_value level2 ->
  exists w1 w2,
    print host fuel l level1 data1 w = Ok tt w1 /\
    print host fuel l level2 data2 w1 = Ok tt w2 /\
    streams w2 !! s
    = Some {| ws_path := ws_path ws; closed := false; destroyed := false;
              written := written ws
                         ++ [ev_simple (print_event host w l o level1 data1) ++ [10];
                             ev_simple (print_event host w1 l o level2 data2) ++ [10]] |}.
Proof.
  intros Hchain Hfuel Hlogger Hget Hws Hc Hd Ht Hle1 Hle2.
  pose proof (proj1 (resolved_stream fuel w l cs s Hchain Hfuel) Hget) as Hfirst.
  set (w1 := after_print host w l o cs level1 data1).
  assert (Hl1 : loggers w1 = loggers w) by apply after_print_loggers.
  assert (Hs1 : streams w1
                = <[s := {| ws_path := ws_path ws; closed := false; destroyed := false;
                            written := written ws
                              ++ [ev_simple (print_event host w l o level1 data1) ++ [10]] |}]>
                    (streams w))
    by (apply (after_print_written host w l o cs level1 data1 s ws t); assumption).
  assert (Hchain1 : chain (loggers w1) l cs) by (rewrite Hl1; assumption).
  assert (Hfirst1 : first_stream (loggers w1) cs = Some s) by (rewrite Hl1; assumption).
  exists w1, (after_print host w1 l o cs level2 data2).
  split; [| split].
  - apply print_returns; try assumption.
    intros s' Hs'. rewrite Hget in Hs'. injection Hs' as <-. eauto.
  - apply print_returns; try assumption; [rewrite Hl1; assumption |].
    intros s' Hs'.
    apply (resolved_stream fuel w1 l cs s' Hchain1 Hfuel) in Hs'.
    rewrite Hfirst1 in Hs'. injection Hs' as <-.
    rewrite Hs1, lookup_insert_eq. eauto.
  - rewrite (after_print_written host w1 l o cs level2 data2 s _ t Hfirst1
               ltac:(rewrite Hs1; apply lookup_insert_eq) eq_refl eq_refl Ht Hle2).
    rewrite lookup_insert_eq. simpl. rewrite <- app_assoc. reflexivity.
Qed.

(** X14: when the stream a logger resolves to is closed or destroyed, or
    there is none, [createFileWriteStream] does not refuse: once the static
    factory has made the stream, the logger resolves to it and the logger
    itself is returned.  The factory's files and streams are left as they
    are. *)
Theorem createFileWriteStream_replaces_closed (host : Host) (fuel : nat) (l : loc)
    (options : WriteStreamOptions) (w w1 : World) (cs : list loc) (s : sid) :
  chain (loggers w) l cs -> (length cs <= fuel)%nat ->
  isWriteStreamClosed fuel l w = Ok true w ->
  Logger_createFileWriteStream host options w = Ok s w1 ->
  loggers w1 = loggers w ->
  exists w' ws,
    createFileWriteStream host fuel l options w = Ok l w' /\
    get_writeStream fuel l w' = Ok (Some s) w' /\
    streams w' !! s = Some ws /\ closed ws = false /\ destroyed ws = false /\
    streams w' = streams w1 /\ files w' = files w1 /\
    console w' = console w1 /\ calls w' = calls w1.
Proof.
  intros Hchain Hfuel Hclosed Hstatic Hsame.
  destruct (Logger_createFileWriteStream_open _ _ _ _ _ Hstatic) as (ws & Hws & Ho1 & Ho2).
  assert (Hchain1 : chain (loggers w1) l cs) by (rewrite Hsame; assumption).
  pose proof (set_writeStream_chain fuel w1 l cs (Some s) Hchain1 Hfuel) as Hset.
  eexists. exists ws. split.
  - unfold createFileWriteStream.
    rewrite (bind_step _ _ _ _ _ Hclosed). simpl.
    rewrite (bind_step _ _ _ _ _ Hstatic). cbv beta.
    rewrite (bind_step _ _ _ _ _ Hset). reflexivity.
  - destruct (set_writeStream_own _ _ _ _ _ Hset) as (o' & Hl' & Ho').
    split; [| simpl; auto 10].
    destruct fuel as [|f]; [inversion Hchain; subst; simpl in Hfuel; lia |].
    cbn [get_writeStream]. run. rewrite Hl', Ho'. reflexivity.
Qed.

(** X15: on a stream that is already closed or destroyed
    [closeFileWriteStream] does call [close]: the promise resolves with the
    logger, the stream ends closed and destroyed with what was written to it,
    and loggers, files, the console and the other streams stay as they were. *)
Theorem closeFileWriteStream_on_closed (fuel : nat) (l : loc) (w : World) (s : sid)
    (ws : WriteStream) :
  get_writeStream fuel l w = Ok (Some s) w -> streams w !! s = Some ws ->
  closed ws || destroyed ws = true ->
  exists w',
    closeFileWriteStream fuel l w = Ok l w' /\
    streams w' !! s = Some {| ws_path := ws_path ws; closed := true; destroyed := true;
                              written := written ws |} /\
    (forall s', s' <> s -> streams w' !! s' = streams w !! s') /\
    loggers w' = loggers w /\ files w' = files w /\
    console w' = console w /\ calls w' = calls w.
Proof.
  intros Hg Hs Hc. eexists. split.
  - unfold closeFileWriteStream. run.
    rewrite (isWriteStreamClosed_resolved _ _ _ _ _ Hg Hs), Hc. simpl.
    rewrite Hg. reflexivity.
  - simpl. split; [| split; [| auto]].
    + rewrite lookup_alter, decide_True, Hs by reflexivity. reflexivity.
    + intros s' Hne. rewrite lookup_alter, decide_False by congruence. reflexivity.
Qed.

(** ** The remaining theorems at work *)







Lemma gzipCompressLog_codec_error_witness :
  gzipCompressLog failing_host latest_log (file_stats 1672531200000 1672531200000)
    scenario_world
  = Throw (lit "Z_MEM_ERROR") scenario_world.
Proof.
  apply (gzipCompressLog_codec_error failing_host latest_log
           (file_stats 1672531200000 1672531200000) scenario_world
           (old_header ++ 10 :: lit "hello" ++ [10])
           1672531200000 1672531200000 1672531200000);
    vm_compute; reflexivity.
Defined.

(** The header of the sample time is read back on a host eight hours ahead
    of UTC, against stat data that say 2023-01-01. *)
Lemma getFileCreationDate_reads_header_witness :
  exists header,
    logDateHeader (Some 1700000000000) empty_world = Ok header empty_world /\
    getFileCreationDate manila_host latest_log
      (Some (file_stats 1672531200000 1672531200000)) (Some [header; lit "hello"])
      empty_world
    = Ok (Some 1700000000000) empty_world.
Proof.
  apply (getFileCreationDate_reads_header manila_host latest_log
           (file_stats 1672531200000 1672531200000) 1700000000000 [lit "hello"]
           empty_world).
  lia.
Defined.

Lemma Logger_new_keeps_others_witness :
  exists l w',
    Logger_new 4 (child_options 2%nat Absent) (family (Some 1%nat) None None)
    = Ok l w' /\
    loggers w' !! 2%nat = Some (plain_logger (Some 1%nat) None [(Info, 4%nat)]) /\
    loggers w' !! 0%nat = Some (plain_logger None (Some 1%nat) [(Info, 1%nat)]).
Proof.
  destruct (Logger_new_keeps_others 4 (child_options 2%nat Absent)
              (family (Some 1%nat) None None) [2; 1; 0]%nat)
    as (l & w' & Hrun & Hfresh & Hkeep & _).
  - apply family_chain.
  - simpl; lia.
  - reflexivity.
  - exists l, w'. split; [exact Hrun |].
    split; (rewrite Hkeep; [reflexivity | intros <-; vm_compute in Hfresh; discriminate]).
Defined.

(** A fourth logger made under the grandchild with stream 1, in a family
    without streams: the grandchild resolves to stream 1 afterwards. *)
Lemma Logger_new_shares_stream_witness :
  exists l w',
    Logger_new 4 (child_options 2%nat (Value 1%nat)) (family None None None)
    = Ok l w' /\
    get_writeStream 4 l w' = Ok (Some 1%nat) w' /\
    get_writeStream 4 2%nat w' = Ok (Some 1%nat) w'.
Proof.
  apply (Logger_new_shares_stream 4 (child_options 2%nat (Value 1%nat))
           (family None None None) 2%nat [2; 1; 0]%nat 1%nat eq_refl
           (family_chain None None None) ltac:(simpl; lia) eq_refl None).
  vm_compute. reflexivity.
Defined.

Lemma clone_same_stream_witness :
  exists l' w',
    clone 4 2%nat no_options false (family (Some 1%nat) None None) = Ok l' w' /\
    loggers (family (Some 1%nat) None None) !! l' = None /\
    get_writeStream 4 l' w' = Ok (Some 1%nat) w'.
Proof.
  apply (clone_same_stream 4 (family (Some 1%nat) None None) 2%nat
           (plain_logger (Some 1%nat) None [(Info, 4%nat)]) [2; 1; 0]%nat
           no_options false (family_chain _ _ _) ltac:(simpl; lia) eq_refl eq_refl eq_refl
           (Some 1%nat)).
  vm_compute. reflexivity.
Defined.

(** The grandchild has no [Error] listener, its parent has one: [emit]
    calls the parent's and returns [false]. *)
Lemma emit_reports_own_listeners_witness :
  exists w',
    emit 3 2%nat Error (print_event utc_host (family None None None) 2%nat
                          (plain_logger (Some 1%nat) None [(Info, 4%nat)]) Error hi)
      (family None None None)
    = Ok false w' /\
    length (calls w') = 1%nat.
Proof.
  destruct (emit_reports_own_listeners 3 (family None None None) 2%nat
              (plain_logger (Some 1%nat) None [(Info, 4%nat)]) [2; 1; 0]%nat Error
              (print_event utc_host (family None None None) 2%nat
                 (plain_logger (Some 1%nat) None [(Info, 4%nat)]) Error hi))
    as (result & w' & Hrun & Hcalls & Hresult).
  - apply family_chain.
  - simpl; lia.
  - reflexivity.
  - exists w'. split.
    + rewrite Hrun. f_equal. destruct result; [| reflexivity].
      destruct (proj1 Hresult eq_refl) as [listener Hin].
      apply elem_of_cons in Hin as [Heq | Hnil]; [discriminate | inversion Hnil].
    + rewrite Hcalls. reflexivity.
Defined.

Lemma print_twice_in_order_witness :
  exists w1 w2,
    print utc_host 3 2%nat Info hi (family (Some 1%nat) None None) = Ok tt w1 /\
    print utc_host 3 2%nat Error hi w1 = Ok tt w2 /\
    streams w2 !! 1%nat
    = Some {| ws_path := app_log; closed := false; destroyed := false;
              written := [lit "INFO hi" ++ [10]; lit "ERROR hi" ++ [10]] |}.
Proof.
  apply (print_twice_in_order utc_host 3 (family (Some 1%nat) None None) 2%nat
           (plain_logger (Some 1%nat) None [(Info, 4%nat)]) [2; 1; 0]%nat 1%nat
           {| ws_path := app_log; closed := false; destroyed := false; written := [] |}
           Info Info Error hi hi).
  - apply family_chain.
  - simpl; lia.
  - reflexivity.
  - vm_compute. reflexivity.
  - reflexivity.
  - reflexivity.
  - reflexivity.
  - reflexivity.
  - simpl; lia.
  - simpl; lia.
Defined.

(** The root's stream is closed: the grandchild gets a stream of its own,
    the third one of the world, and it is open. *)
Lemma createFileWriteStream_replaces_closed_witness :
  exists w' ws,
    createFileWriteStream utc_host 3 2%nat append_app_log closed_family = Ok 2%nat w' /\
    get_writeStream 3 2%nat w' = Ok (Some 2%nat) w' /\
    streams w' !! 2%nat = Some ws /\ closed ws = false /\ destroyed ws = false.
Proof.
  destruct (createFileWriteStream_replaces_closed utc_host 3 2%nat append_app_log
              closed_family closed_family_reopened [2; 1; 0]%nat 2%nat)
    as (w' & ws & Hrun & Hget & Hws & Hc & Hd & _).
  - apply family_chain.
  - simpl; lia.
  - vm_compute. reflexivity.
  - vm_compute. reflexivity.
  - vm_compute. reflexivity.
  - exists w', ws. auto.
Defined.

Lemma closeFileWriteStream_on_closed_witness :
  exists w',
    closeFileWriteStream 3 2%nat closed_family = Ok 2%nat w' /\
    streams w' !! 0%nat
    = Some {| ws_path := lit "/logs/old.log"; closed := true; destroyed := true;
              written := [] |} /\
    loggers w' = loggers closed_family.
Proof.
  destruct (closeFileWriteStream_on_closed 3 2%nat closed_family 0%nat
              {| ws_path := lit "/logs/old.log"; closed := true; destroyed := true;
                 written := [] |})
    as (w' & Hrun & Hs & _ & Hl & _).
  - vm_compute. reflexivity.
  - reflexivity.
  - reflexivity.
  - exists w'. auto.
Defined.
